(** * NSE Stock Analyzer: the computational core of [app.py]

    The program fetches a table of daily trading records for one symbol,
    cleans it, derives a few per-day ratios, labels every day with a remark
    and prepares a chart and a 50-row report.  This development embeds that
    pipeline (lines 31-83 of [app.py]) and settles the properties stated
    about it.

    Conventions of the embedding.
    - A pandas column is a list; a DataFrame is a record of columns that share
      one index (a list of integer labels).  Vectorised operations are
      [zip_with] and [fmap]; all of them work by position, as pandas does for
      columns that carry the same index object.
    - A float64 is modelled as an exact rational, or one of +inf, -inf, NaN
      ([xnum]).  Arithmetic on the special values follows IEEE-754; on
      finite values it is exact (no rounding error, no overflow), and the
      sign of a zero is not tracked (a zero divisor counts as +0.0).
    - Column names that are not identifiers are spelt out:
      [No_ofTrades] is 'No.ofTrades', [pct_DlyQttoTradedQty] is
      '%DlyQttoTradedQty', [avg_pct_DEL] is 'avg%DEL', [pct_chngACT] is
      '%chngACT', [pct_chngDEL] is '%chngDEL', [pct_iCHANGE] is '%iCHANGE',
      [pct_CHANGE] is '%CHANGE', [EMA30] is '30EMA'. *)

From Stdlib Require Import ZArith QArith Lia List String Ascii Bool.
From Stdlib Require Import Permutation Lqa.
From stdpp Require Import base list strings sorting.

Local Open Scope string_scope.
Local Open Scope list_scope.

(** ** Numbers: float64 as extended rationals *)

Inductive xnum : Type :=
  | Fin (q : Q)
  | PInf
  | NInf
  | NaN.

Definition isna (x : xnum) : bool :=
  match x with NaN => true | _ => false end.

Definition notna (x : xnum) : bool := negb (isna x).

Definition is_inf (x : xnum) : bool :=
  match x with PInf | NInf => true | _ => false end.

Definition Qltb (a b : Q) : bool := (Qnum a * QDen b <? Qnum b * QDen a)%Z.

Definition Qsign (a : Q) : comparison := (Qnum a ?= 0)%Z.

Definition xneg (x : xnum) : xnum :=
  match x with
  | Fin q => Fin (- q)
  | PInf => NInf
  | NInf => PInf
  | NaN => NaN
  end.

Definition xadd (x y : xnum) : xnum :=
  match x, y with
  | NaN, _ | _, NaN => NaN
  | PInf, NInf | NInf, PInf => NaN
  | PInf, _ | _, PInf => PInf
  | NInf, _ | _, NInf => NInf
  | Fin a, Fin b => Fin (a + b)
  end.

Definition xsub (x y : xnum) : xnum := xadd x (xneg y).

(** The infinity carrying the sign of a comparison with zero; a product
    of an infinity with zero is NaN. *)
Definition inf_of_sign (c : comparison) : xnum :=
  match c with Gt => PInf | Lt => NInf | Eq => NaN end.

Definition xsign (x : xnum) : comparison :=
  match x with
  | Fin q => Qsign q
  | PInf => Gt
  | NInf => Lt
  | NaN => Eq
  end.

Definition sign_mul (c d : comparison) : comparison :=
  match c, d with
  | Eq, _ | _, Eq => Eq
  | Gt, Gt | Lt, Lt => Gt
  | _, _ => Lt
  end.

Definition xmul (x y : xnum) : xnum :=
  match x, y with
  | NaN, _ | _, NaN => NaN
  | Fin a, Fin b => Fin (a * b)
  | _, _ => inf_of_sign (sign_mul (xsign x) (xsign y))
  end.

(** Division.  A finite value over zero is an infinity of the sign of the
    numerator, 0/0 is NaN, anything finite over an infinity is 0. *)
Definition xdiv (x y : xnum) : xnum :=
  match x, y with
  | NaN, _ | _, NaN => NaN
  | Fin a, Fin b =>
      match Qsign b with
      | Eq => inf_of_sign (Qsign a)
      | _ => Fin (a / b)
      end
  | Fin _, _ => Fin 0
  | _, Fin b =>
      match Qsign b with
      | Lt => xneg x
      | _ => x
      end
  | _, _ => NaN
  end.

(** Comparisons: any comparison with NaN is false. *)
Definition xlt (x y : xnum) : bool :=
  match x, y with
  | NaN, _ | _, NaN => false
  | Fin a, Fin b => Qltb a b
  | NInf, NInf => false
  | NInf, _ => true
  | PInf, _ => false
  | Fin _, PInf => true
  | Fin _, NInf => false
  end.

Definition xgt (x y : xnum) : bool := xlt y x.

(** Equality of values (not of representations); NaN equals nothing. *)
Definition xeq (x y : xnum) : Prop :=
  match x, y with
  | Fin a, Fin b => a == b
  | PInf, PInf | NInf, NInf => True
  | _, _ => False
  end.

Definition xeqb (x y : xnum) : bool :=
  match x, y with
  | Fin a, Fin b => Qeq_bool a b
  | PInf, PInf | NInf, NInf => true
  | _, _ => false
  end.

(** [numpy.round(x, 2)]: scale by 100, round half to even, scale back.
    The tie is that of the exact value; in float64 the product x * 100 of
    a value written with three decimals can fall on either side of it. *)
Definition round_half_even (q : Q) : Z :=
  let n := Qnum q in
  let d := QDen q in
  let f := (n / d)%Z in
  match (2 * (n mod d) ?= d)%Z with
  | Lt => f
  | Gt => (f + 1)%Z
  | Eq => if Z.even f then f else (f + 1)%Z
  end.

Definition round2 (x : xnum) : xnum :=
  match x with
  | Fin q => Fin (round_half_even (q * 100) # 100)
  | _ => x
  end.

(** A Python scalar returned by a reduction.  [Series.mean] divides the
    sum of the known values by their count and returns a [numpy.float64];
    when the count is 0 (an empty column, or one that holds only NaN) it
    returns the literal [numpy.nan] instead, which is a built-in [float].
    The two differ in their methods: [numpy.float64] has [round], the
    built-in [float] has not. *)
Inductive scalar : Type :=
  | np_float64 (x : xnum)
  | py_float (x : xnum).

Definition xsum (vals : list xnum) : xnum := fold_left xadd vals (Fin 0).

(** [Series.mean(skipna=True)] *)
Definition mean_skipna (col : list xnum) : scalar :=
  let vals := List.filter notna col in
  match vals with
  | [] => py_float NaN
  | _ => np_float64 (xdiv (xsum vals) (Fin (Z.of_nat (length vals) # 1)))
  end.

(** ** Exceptions *)

Inductive exn : Type :=
  | AttributeError (msg : string).

Inductive result (A : Type) : Type :=
  | Ok (a : A)
  | Raise (e : exn).
Arguments Ok {A} a.
Arguments Raise {A} e.

#[global] Instance result_ret : MRet result := fun _ a => Ok a.
#[global] Instance result_bind : MBind result := fun _ _ f m =>
  match m with
  | Ok a => f a
  | Raise e => Raise e
  end.

(** [s.round(2)] on a scalar *)
Definition scalar_round2 (s : scalar) : result xnum :=
  match s with
  | np_float64 x => Ok (round2 x)
  | py_float _ => Raise (AttributeError "'float' object has no attribute 'round'")
  end.

(** ** Cells of the provider's table and their cleaning (lines 35-37) *)

(** A cell of an object column is text or a float (NaN for a missing
    value). *)
Inductive cell : Type :=
  | CNum (x : xnum)
  | CStr (s : string).

(** [df.replace('-', np.nan)]: a cell that is exactly the text '-' *)
Definition replace_dash (c : cell) : cell :=
  match c with
  | CStr "-" => CNum NaN
  | _ => c
  end.

Definition chars (s : string) : list ascii := list_ascii_of_string s.

Definition is_comma (a : ascii) : bool := Ascii.eqb a ","%char.

(** [.replace(",", "", regex=True)]: every comma of a text cell removed *)
Definition strip_commas (c : cell) : cell :=
  match c with
  | CStr s =>
      CStr (string_of_list_ascii (List.filter (fun a => negb (is_comma a)) (chars s)))
  | _ => c
  end.

Definition digit_val (a : ascii) : option Z :=
  let n := nat_of_ascii a in
  if (48 <=? n)%nat && (n <=? 57)%nat then Some (Z.of_nat (n - 48)) else None.

Fixpoint digits_val (acc : Z) (l : list ascii) : option Z :=
  match l with
  | [] => Some acc
  | a :: l' =>
      match digit_val a with
      | Some d => digits_val (acc * 10 + d) l'
      | None => None
      end
  end.

(** The text before the first dot, and the text after it if there is one. *)
Fixpoint split_dot (l : list ascii) : list ascii * option (list ascii) :=
  match l with
  | [] => ([], None)
  | a :: l' =>
      if Ascii.eqb a "."%char then ([], Some l')
      else let '(ip, fp) := split_dot l' in (a :: ip, fp)
  end.

Definition pow10 (k : nat) : positive := Z.to_pos (10 ^ Z.of_nat k).

Definition parse_unsigned (l : list ascii) : option Q :=
  let '(ip, fp) := split_dot l in
  let fp' := default [] fp in
  match ip, fp' with
  | [], [] => None
  | _, _ =>
      match digits_val 0 ip, digits_val 0 fp' with
      | Some n, Some m => Some ((n * Z.pos (pow10 (length fp')) + m) # pow10 (length fp'))
      | _, _ => None
      end
  end.

(** Plain decimal numerals: an optional sign, digits, an optional dot and
    digits.  This is the fragment of the numerals [pandas.to_numeric]
    reads that the exchange's tables use; other spellings pandas accepts
    (exponents, 'inf', surrounding blanks) are not modelled and read as
    unparseable here. *)
Definition parse_decimal (s : string) : option Q :=
  match chars s with
  | "-"%char :: l => Qopp <$> parse_unsigned l
  | "+"%char :: l => parse_unsigned l
  | l => parse_unsigned l
  end.

(** [pd.to_numeric(errors='coerce')] on one cell *)
Definition to_numeric (c : cell) : xnum :=
  match c with
  | CNum x => x
  | CStr s =>
      match parse_decimal s with
      | Some q => Fin q
      | None => NaN
      end
  end.

(** ** Dates (line 61) *)

Record timestamp : Type := { year : Z; month : Z; day : Z }.

Definition lower (a : ascii) : ascii :=
  let n := nat_of_ascii a in
  if (65 <=? n)%nat && (n <=? 90)%nat then ascii_of_nat (n + 32) else a.

Definition month_abbrs : list string :=
  ["jan"; "feb"; "mar"; "apr"; "may"; "jun";
   "jul"; "aug"; "sep"; "oct"; "nov"; "dec"].

Fixpoint find_index (s : string) (l : list string) (i : Z) : option Z :=
  match l with
  | [] => None
  | h :: t => if String.eqb s h then Some i else find_index s t (i + 1)%Z
  end.

Definition month_of_abbr (l : list ascii) : option Z :=
  find_index (string_of_list_ascii (lower <$> l)) month_abbrs 1.

Definition is_leap (y : Z) : bool :=
  ((y mod 4 =? 0) && negb (y mod 100 =? 0) || (y mod 400 =? 0))%Z.

Definition days_in_month (y m : Z) : Z :=
  if (m =? 2)%Z then (if is_leap y then 29 else 28)%Z
  else if ((m =? 4) || (m =? 6) || (m =? 9) || (m =? 11))%Z then 30%Z
  else 31%Z.

(** The text up to the first '-', and the rest after it. *)
Fixpoint split_dash (l : list ascii) : list ascii * option (list ascii) :=
  match l with
  | [] => ([], None)
  | a :: l' =>
      if Ascii.eqb a "-"%char then ([], Some l')
      else let '(h, t) := split_dash l' in (a :: h, t)
  end.

(** The day field: one or two digits, or a blank and one digit. *)
Definition day_val (d : list ascii) : option Z :=
  match d with
  | [" "%char; c] => digit_val c
  | _ => digits_val 0 d
  end.

(** [strptime] for the format '%d-%b-%Y': a day of one or two digits (a
    blank may stand for a leading zero), an English month abbreviation in
    any case, a year of four digits, and the day must exist in that
    month. *)
Definition strptime_d_b_Y (s : string) : option timestamp :=
  match split_dash (chars s) with
  | (d, Some rest) =>
      match split_dash rest with
      | (b, Some y) =>
          if ((1 <=? length d)%nat && (length d <=? 2)%nat && (length y =? 4)%nat)
          then
            match day_val d, month_of_abbr b, digits_val 0 y with
            | Some dv, Some mv, Some yv =>
                if ((1 <=? dv) && (dv <=? days_in_month yv mv))%Z
                then Some {| year := yv; month := mv; day := dv |}
                else None
            | _, _, _ => None
            end
          else None
      | _ => None
      end
  | _ => None
  end.

(** [pd.to_datetime(format='%d-%b-%Y', errors='coerce')] on one cell:
    [None] is NaT. *)
Definition to_datetime (c : cell) : option timestamp :=
  match c with
  | CStr s => strptime_d_b_Y s
  | CNum _ => None
  end.

(** ** The provider's table and its cleaning (lines 30-37) *)

(** One row of the provider's DataFrame: its index label and the seven
    columns line 34 keeps. *)
Record raw_row : Type := {
  r_index : Z;
  r_Symbol : cell;
  r_Series : cell;
  r_Date : cell;
  r_ClosePrice : cell;
  r_TotalTradedQuantity : cell;
  r_No_ofTrades : cell;
  r_pct_DlyQttoTradedQty : cell
}.

(** [df.sort_index(ascending=False)]: rows by decreasing index label (the
    order of rows with equal labels is kept, pandas leaves it
    unspecified). *)
Fixpoint insert_desc (r : raw_row) (l : list raw_row) : list raw_row :=
  match l with
  | [] => [r]
  | h :: t =>
      if (r_index h <=? r_index r)%Z then r :: l else h :: insert_desc r t
  end.

Definition sort_index_desc (rows : list raw_row) : list raw_row :=
  foldr insert_desc [] rows.

(** The DataFrame [df] after line 37. *)
Record frame : Type := {
  index : list Z;
  Symbol : list cell;
  Series : list cell;
  Date : list cell;
  ClosePrice : list xnum;
  TotalTradedQuantity : list xnum;
  No_ofTrades : list xnum;
  pct_DlyQttoTradedQty : list xnum
}.

(** Lines 35-37 on one numeric cell. *)
Definition clean_numeric (c : cell) : xnum :=
  round2 (to_numeric (strip_commas (replace_dash c))).

Definition select_and_clean (rows : list raw_row) : frame :=
  {| index := r_index <$> rows;
     Symbol := (fun r => replace_dash (r_Symbol r)) <$> rows;
     Series := (fun r => replace_dash (r_Series r)) <$> rows;
     Date := (fun r => replace_dash (r_Date r)) <$> rows;
     ClosePrice := (fun r => clean_numeric (r_ClosePrice r)) <$> rows;
     TotalTradedQuantity := (fun r => clean_numeric (r_TotalTradedQuantity r)) <$> rows;
     No_ofTrades := (fun r => clean_numeric (r_No_ofTrades r)) <$> rows;
     pct_DlyQttoTradedQty := (fun r => clean_numeric (r_pct_DlyQttoTradedQty r)) <$> rows |}.

(** ** Column operations *)

Definition col_sub : list xnum -> list xnum -> list xnum := zip_with xsub.
Definition col_div : list xnum -> list xnum -> list xnum := zip_with xdiv.
Definition col_times (k : xnum) (c : list xnum) : list xnum := (fun x => xmul x k) <$> c.
Definition col_round2 (c : list xnum) : list xnum := round2 <$> c.
Definition col_gt : list xnum -> list xnum -> list bool := zip_with xgt.
Definition col_lt : list xnum -> list xnum -> list bool := zip_with xlt.
Definition col_and : list bool -> list bool -> list bool := zip_with andb.

(** [Series.shift(periods)]: values move down by [periods] positions (up
    when negative); the vacated positions hold NaN. *)
Definition shift (periods : Z) (c : list xnum) : list xnum :=
  if (0 <=? periods)%Z
  then take (length c) (replicate (Z.to_nat periods) NaN ++ c)
  else drop (Z.to_nat (- periods)) c
       ++ replicate (min (length c) (Z.to_nat (- periods))) NaN.

(** [np.select(condlist, choicelist, default)] at one position: the choice
    of the first condition that holds. *)
Fixpoint select_at {A : Type} (conds : list bool) (choices : list A) (default : A) : A :=
  match conds, choices with
  | c :: cs, x :: xs => if c then x else select_at cs xs default
  | _, _ => default
  end.

Definition np_select {A : Type} (n : nat) (condlist : list (list bool))
    (choicelist : list A) (default : A) : list A :=
  (fun i => select_at ((fun c => nth i c false) <$> condlist) choicelist default) <$> seq 0 n.

(** ** Derived columns and remarks (lines 40-57) *)

Record enriched : Type := {
  base : frame;
  ACTION : list xnum;
  avgACTION : list xnum;
  avg_pct_DEL : list xnum;
  pct_chngACT : list xnum;
  pct_chngDEL : list xnum;
  SHIFT : list xnum;
  pct_iCHANGE : list xnum;
  pct_CHANGE : list xnum;
  REMARKS : list string
}.

Definition conditions (dly avgdel action avgaction : list xnum) : list (list bool) :=
  [ col_and (col_gt dly avgdel) (col_lt action avgaction);
    col_and (col_lt dly avgdel) (col_gt action avgaction);
    col_and (col_gt dly avgdel) (col_gt action avgaction);
    col_and (col_lt dly avgdel) (col_lt action avgaction) ].

Definition remarks : list string := ["ACC(G-LZ)"; "BR(G-HZ)"; "JACKPOT"; "NA"].

(** Line 57 *)
Definition select_remarks (n : nat) (dly avgdel action avgaction : list xnum) : list string :=
  np_select n (conditions dly avgdel action avgaction) remarks "NA".

Definition pct_of (a b : list xnum) : list xnum :=
  col_round2 (col_times (Fin 100) (col_div (col_sub a b) b)).

Definition enrich (df : frame) : result enriched :=
  let n := length (index df) in
  let action := col_round2 (col_div (TotalTradedQuantity df) (No_ofTrades df)) in
  a ← scalar_round2 (mean_skipna action);
  let avgaction := replicate n a in
  d ← scalar_round2 (mean_skipna (pct_DlyQttoTradedQty df));
  let avgdel := replicate n d in
  let chngact := pct_of action avgaction in
  let chngdel := pct_of (pct_DlyQttoTradedQty df) avgdel in
  let shifted := shift 1 (ClosePrice df) in
  let ichange := pct_of shifted (ClosePrice df) in
  let change := col_round2 (shift (-1) ichange) in
  mret {| base := df;
          ACTION := action;
          avgACTION := avgaction;
          avg_pct_DEL := avgdel;
          pct_chngACT := chngact;
          pct_chngDEL := chngdel;
          SHIFT := shifted;
          pct_iCHANGE := ichange;
          pct_CHANGE := change;
          REMARKS := select_remarks n (pct_DlyQttoTradedQty df) avgdel action avgaction |}.

(** ** Plot section (lines 60-71) *)

(** Rows kept by a boolean mask. *)
Fixpoint mask_filter {A : Type} (mask : list bool) (c : list A) : list A :=
  match mask, c with
  | b :: mask', x :: c' => if b then x :: mask_filter mask' c' else mask_filter mask' c'
  | _, _ => []
  end.

(** [Series.ewm(span=..., adjust=False).mean()], pandas' loop: [weighted]
    is the running average and [old_wt] the weight it carries; a NaN
    running average restarts from the next observation. *)
Definition ewm_com (span : Q) : Q := ((span - 1) / 2)%Q.
Definition ewm_alpha (span : Q) : Q := (1 / (1 + ewm_com span))%Q.

Fixpoint ewm_loop (alpha : Q) (weighted : xnum) (old_wt : Q) (vals : list xnum) : list xnum :=
  match vals with
  | [] => []
  | cur :: rest =>
      let '(weighted', old_wt') :=
        if notna weighted then
          let old_wt1 := (old_wt * (1 - alpha))%Q in
          if notna cur then
            ((if xeqb weighted cur then weighted
              else xdiv (xadd (xmul (Fin old_wt1) weighted) (xmul (Fin alpha) cur))
                        (Fin (old_wt1 + alpha)%Q)),
             1%Q)
          else (weighted, old_wt1)
        else if notna cur then (cur, old_wt)
        else (weighted, old_wt)
      in
      weighted' :: ewm_loop alpha weighted' old_wt' rest
  end.

(** Before the loop, pandas' window code replaces infinities by NaN. *)
Definition inf_to_nan (x : xnum) : xnum := if is_inf x then NaN else x.

Definition ewm_mean (span : Q) (vals : list xnum) : list xnum :=
  match inf_to_nan <$> vals with
  | [] => []
  | v0 :: rest => v0 :: ewm_loop (ewm_alpha span) v0 1%Q rest
  end.

(** [df_plot]: the columns the chart reads.  The other columns of [df] are
    copied along by line 60 and never read. *)
Record plot_frame : Type := {
  p_index : list Z;
  p_Date : list (option timestamp);
  p_ClosePrice : list xnum;
  p_REMARKS : list string;
  p_EMA30 : list xnum
}.

Definition df_plot (e : enriched) : plot_frame :=
  let mask := notna <$> ClosePrice (base e) in
  let close := mask_filter mask (ClosePrice (base e)) in
  {| p_index := mask_filter mask (index (base e));
     p_Date := to_datetime <$> mask_filter mask (Date (base e));
     p_ClosePrice := close;
     p_REMARKS := mask_filter mask (REMARKS e);
     p_EMA30 := ewm_mean 30%Q close |}.

(** What is handed to the plotting library: each series with the index
    labels of its points, its x values and its y values. *)
Record series : Type := {
  s_label : string;
  s_color : string;
  s_index : list Z;
  s_x : list (option timestamp);
  s_y : list xnum
}.

Record chart : Type := {
  lines : list series;
  scatters : list series
}.

Definition colors : list (string * string) :=
  [("JACKPOT", "green"); ("ACC(G-LZ)", "yellow"); ("BR(G-HZ)", "red")].

Definition scatter_of (p : plot_frame) (lc : string * string) : series :=
  let mask := (fun r => String.eqb r (fst lc)) <$> p_REMARKS p in
  {| s_label := fst lc;
     s_color := snd lc;
     s_index := mask_filter mask (p_index p);
     s_x := mask_filter mask (p_Date p);
     s_y := mask_filter mask (p_ClosePrice p) |}.

Definition build_chart (p : plot_frame) : chart :=
  {| lines :=
       [ {| s_label := "Close Price"; s_color := "blue";
            s_index := p_index p; s_x := p_Date p; s_y := p_ClosePrice p |};
         {| s_label := "30 EMA"; s_color := "orange";
            s_index := p_index p; s_x := p_Date p; s_y := p_EMA30 p |} ];
     scatters := scatter_of p <$> colors |}.

(** ** Data table (lines 81-83) *)

Record display : Type := {
  d_index : list Z;
  d_Symbol : list cell;
  d_Date : list cell;
  d_pct_chngACT : list xnum;
  d_pct_chngDEL : list xnum;
  d_REMARKS : list string;
  d_ClosePrice : list xnum;
  d_pct_CHANGE : list xnum;
  d_pct_DlyQttoTradedQty : list xnum
}.

(** [df[[...]].head(k)] *)
Definition head_display (k : nat) (e : enriched) : display :=
  {| d_index := take k (index (base e));
     d_Symbol := take k (Symbol (base e));
     d_Date := take k (Date (base e));
     d_pct_chngACT := take k (pct_chngACT e);
     d_pct_chngDEL := take k (pct_chngDEL e);
     d_REMARKS := take k (REMARKS e);
     d_ClosePrice := take k (ClosePrice (base e));
     d_pct_CHANGE := take k (pct_CHANGE e);
     d_pct_DlyQttoTradedQty := take k (pct_DlyQttoTradedQty (base e)) |}.

(** The names of the columns of the displayed table, in order. *)
Definition display_columns : list string :=
  ["Symbol"; "Date"; "%chngACT"; "%chngDEL"; "REMARKS"; "ClosePrice"; "%CHANGE";
   "%DlyQttoTradedQty"].

(** [df_display.style.background_gradient(cmap=..., subset=...)]: the
    table with the colour map and the columns it shades. *)
Record styler : Type := {
  data : display;
  columns : list string;
  gradient_cmap : string;
  gradient_subset : list string
}.

Definition df_display (e : enriched) : styler :=
  {| data := head_display 50 e;
     columns := display_columns;
     gradient_cmap := "coolwarm";
     gradient_subset := ["%chngACT"; "%chngDEL"; "%DlyQttoTradedQty"] |}.

(** ** The whole run (lines 30-83) *)

Record output : Type := {
  out_df : enriched;
  out_chart : chart;
  out_table : styler
}.

Definition analyze (provider_df : list raw_row) : result output :=
  let df := select_and_clean (sort_index_desc provider_df) in
  e ← enrich df;
  mret {| out_df := e;
          out_chart := build_chart (df_plot e);
          out_table := df_display e |}.

(** What the page shows: the chart and the table, or the error box of
    the handler at line 85.  The drawing of the chart and of the styled
    table by the page ([st.pyplot], [st.dataframe]) is outside the model:
    [app] is the outcome of lines 30-81 and of building the Styler. *)
Inductive page : Type :=
  | Rendered (c : chart) (t : styler)
  | ErrorBox (e : exn).

Definition app (provider_df : list raw_row) : page :=
  match analyze provider_df with
  | Ok o => Rendered (out_chart o) (out_table o)
  | Raise e => ErrorBox e
  end.

(** ** Sample tables *)

Definition mk_row (i : Z) (date close qty trades dly : string) : raw_row :=
  {| r_index := i; r_Symbol := CStr "TCS"; r_Series := CStr "EQ";
     r_Date := CStr date; r_ClosePrice := CStr close;
     r_TotalTradedQuantity := CStr qty; r_No_ofTrades := CStr trades;
     r_pct_DlyQttoTradedQty := CStr dly |}.

(** Four days, oldest first as the provider lists them; closes 105, 99,
    102, 100, so that newest first they read 100, 102, 99, 105. *)
Definition four_days : list raw_row :=
  [ mk_row 0 "01-Jan-2025" "105" "1,000,000" "10,000" "60.00";
    mk_row 1 "02-Jan-2025" "99" "500,000" "10,000" "40.00";
    mk_row 2 "03-Jan-2025" "102" "2,000,000" "10,000" "55.50";
    mk_row 3 "06-Jan-2025" "100" "900,000" "10,000" "45" ].

(** Three days where the middle one has no close price and no date. *)
Definition gap_days : list raw_row :=
  [ mk_row 0 "01-Jan-2025" "105" "1,000,000" "10,000" "60.00";
    mk_row 1 "-" "-" "500,000" "10,000" "40.00";
    mk_row 2 "03-Jan-2025" "102" "2,000,000" "10,000" "55.50" ].

(** Three days where the middle one has a close price and no date. *)
Definition undated_days : list raw_row :=
  [ mk_row 0 "01-Jan-2025" "105" "1,000,000" "10,000" "60.00";
    mk_row 1 "-" "99" "500,000" "10,000" "40.00";
    mk_row 2 "03-Jan-2025" "102" "2,000,000" "10,000" "55.50" ].

(** Fifty-one days with distinct dates; the oldest has no close price. *)
Definition two_digits (n : nat) : string :=
  String (ascii_of_nat (48 + n / 10)) (String (ascii_of_nat (48 + n mod 10)) EmptyString).

Definition sample_date (i : nat) : string :=
  two_digits (i mod 28 + 1) ++ "-" ++ nth (i / 28) ["Jan"; "Feb"; "Mar"] "Apr" ++ "-2025".

Definition fifty_one_days : list raw_row :=
  (fun i => mk_row (Z.of_nat i) (sample_date i) (if (i =? 0)%nat then "-" else "100")
              "1,000,000" "10,000" "50.00") <$> seq 0 51.

(** Two days of which the older has the placeholder for its number of
    trades. *)
Definition untraded_days : list raw_row :=
  [ mk_row 0 "01-Jan-2025" "105" "1,000,000" "-" "60.00";
    mk_row 1 "02-Jan-2025" "99" "500,000" "10,000" "40.00" ].

(** One day on which a quantity was reported with no trade. *)
Definition no_trade_day : list raw_row :=
  [ mk_row 0 "01-Jan-2025" "105" "1,000" "0" "60.00" ].

(** ** The stated properties, as definitions *)

(** The priority rule for one record. *)
Definition remark_rule (dly avgdel action avgaction : xnum) : string :=
  if xgt dly avgdel && xlt action avgaction then "ACC(G-LZ)"
  else if xlt dly avgdel && xgt action avgaction then "BR(G-HZ)"
  else if xgt dly avgdel && xgt action avgaction then "JACKPOT"
  else "NA".

(** The classifier with the first three guards only and default NA. *)
Definition select_remarks_three_guards (n : nat) (dly avgdel action avgaction : list xnum)
    : list string :=
  np_select n
    [ col_and (col_gt dly avgdel) (col_lt action avgaction);
      col_and (col_lt dly avgdel) (col_gt action avgaction);
      col_and (col_gt dly avgdel) (col_gt action avgaction) ]
    ["ACC(G-LZ)"; "BR(G-HZ)"; "JACKPOT"] "NA".

(** The standard recursion of an exponential moving average on rationals. *)
Fixpoint ema_from (alpha prev : Q) (closes : list Q) : list Q :=
  match closes with
  | [] => []
  | c :: rest =>
      let y := (c * alpha + prev * (1 - alpha))%Q in
      y :: ema_from alpha y rest
  end.

Definition ema (alpha : Q) (closes : list Q) : list Q :=
  match closes with
  | [] => []
  | c :: rest => c :: ema_from alpha c rest
  end.

(** Index labels in decreasing order. *)
Definition descending (l : list Z) : Prop := StronglySorted (fun a b => (b <= a)%Z) l.

(** The points of a series and the rows of the plot frame. *)
Definition points (s : series) : list (Z * option timestamp * xnum) :=
  zip (zip (s_index s) (s_x s)) (s_y s).

Definition plot_rows (p : plot_frame) : list (Z * option timestamp * xnum * string) :=
  zip (zip (zip (p_index p) (p_Date p)) (p_ClosePrice p)) (p_REMARKS p).

Definition all_series (c : chart) : list series := lines c ++ scatters c.

(** Index labels in strictly increasing order, as in a table the provider
    lists oldest first under a running index. *)
Definition ascending (l : list Z) : Prop := StronglySorted Z.lt l.

(** A known value that is not negative, and one that is not positive. *)
Definition known_nonneg (x : xnum) : Prop := x <> NaN /\ xlt x (Fin 0) = false.
Definition known_nonpos (x : xnum) : Prop := x <> NaN /\ xgt x (Fin 0) = false.

(** A text with every comma removed. *)
Definition without_commas (s : string) : string :=
  string_of_list_ascii (List.filter (fun a => negb (is_comma a)) (chars s)).

(** A rational between two bounds. *)
Definition between (lo hi q : Q) : Prop := (lo <= q)%Q /\ (q <= hi)%Q.

(** How many entries of a column of remarks are NA. *)
Definition count_NA (l : list string) : nat :=
  length (List.filter (fun r => String.eqb r "NA") l).

(** Every column of a frame has one value per index label. *)
Definition aligned (df : frame) : Prop :=
  length (Symbol df) = length (index df)
  /\ length (Date df) = length (index df)
  /\ length (ClosePrice df) = length (index df)
  /\ length (TotalTradedQuantity df) = length (index df)
  /\ length (No_ofTrades df) = length (index df)
  /\ length (pct_DlyQttoTradedQty df) = length (index df).

(** * Properties *)

(** A statement about the run on a sample table: compute the run, then
    go on with what is said about its output. *)
Ltac on_sample_run := eexists; split; [vm_compute; reflexivity|].
Ltac computed := vm_compute; reflexivity.

(** ** Numbers *)

Lemma Qltb_lt (a b : Q) : Qltb a b = true <-> (a < b)%Q.
Proof. unfold Qltb, Qlt. apply Z.ltb_lt. Qed.

Lemma Qltb_irrefl (a b : Q) : (a == b)%Q -> Qltb a b = false.
Proof.
  intros H. destruct (Qltb a b) eqn:E; [|done].
  apply Qltb_lt in E. rewrite H in E. by apply Qlt_irrefl in E.
Qed.

Lemma xlt_Fin (a b : Q) : xlt (Fin a) (Fin b) = true <-> (a < b)%Q.
Proof. apply Qltb_lt. Qed.

Lemma xlt_NaN_l (y : xnum) : xlt NaN y = false.
Proof. done. Qed.

Lemma xlt_NaN_r (x : xnum) : xlt x NaN = false.
Proof. by destruct x. Qed.

Lemma xeq_sym (x y : xnum) : xeq x y -> xeq y x.
Proof. by destruct x, y. Qed.

Lemma xlt_xeq (x y : xnum) : xeq x y -> xlt x y = false.
Proof. destruct x, y; simpl; try done. apply Qltb_irrefl. Qed.

Lemma round_half_even_hundredths (k : Z) : round_half_even ((k # 100) * 100) = k.
Proof.
  unfold round_half_even.
  change (Qnum ((k # 100) * 100)) with (k * 100)%Z.
  change (QDen ((k # 100) * 100)) with 100%Z.
  rewrite Z.mod_mul, Z.div_mul by lia. done.
Qed.

Lemma round2_idem (x : xnum) : round2 (round2 x) = round2 x.
Proof.
  destruct x; simpl; try done.
  by rewrite round_half_even_hundredths.
Qed.

Lemma round2_is_inf (x : xnum) : is_inf (round2 x) = is_inf x.
Proof. by destruct x. Qed.

Lemma xdiv_NaN_r (x : xnum) : xdiv x NaN = NaN.
Proof. by destruct x. Qed.

Lemma Qsign_Eq (a : Q) : Qsign a = Eq <-> (a == 0)%Q.
Proof.
  unfold Qsign, Qeq. simpl. rewrite Z.compare_eq_iff. lia.
Qed.

(** A zero divisor gives NaN or an infinity, never a finite value. *)
Lemma xdiv_zero (x y : xnum) :
  xeq y (Fin 0) -> xdiv x y = NaN \/ is_inf (xdiv x y) = true.
Proof.
  destruct y as [b| | |]; simpl; try done. intros Hb.
  apply Qsign_Eq in Hb.
  destruct x as [a| | |]; simpl; rewrite ?Hb; auto.
  destruct (Qsign a); simpl; auto.
Qed.

Lemma xdiv_zero_zero (x y : xnum) :
  xeq y (Fin 0) -> x = NaN \/ xeq x (Fin 0) -> xdiv x y = NaN.
Proof.
  destruct y as [b| | |]; simpl; try done. intros Hb Hx.
  apply Qsign_Eq in Hb.
  destruct Hx as [-> | Hx]; [done|].
  destruct x as [a| | |]; simpl in *; try done.
  apply Qsign_Eq in Hx. by rewrite Hb, Hx.
Qed.

Lemma xdiv_zero_nonzero (x y : xnum) :
  xeq y (Fin 0) -> x <> NaN -> ~ xeq x (Fin 0) -> is_inf (xdiv x y) = true.
Proof.
  destruct y as [b| | |]; simpl; try done. intros Hb Hn Hx.
  apply Qsign_Eq in Hb.
  destruct x as [a| | |]; simpl in *; rewrite ?Hb; try done.
  destruct (Qsign a) eqn:E; simpl; try done.
  apply Qsign_Eq in E. done.
Qed.

Lemma xmul_100_inf (x : xnum) : is_inf x = true -> is_inf (xmul x (Fin 100)) = true.
Proof. by destruct x. Qed.

(** ** Columns *)

Lemma length_shift (p : Z) (c : list xnum) : length (shift p c) = length c.
Proof.
  unfold shift. destruct (0 <=? p)%Z.
  - rewrite length_take, length_app, length_replicate. lia.
  - rewrite length_app, length_drop, length_replicate. lia.
Qed.

Lemma shift_1_eq (c : list xnum) : shift 1 c = take (length c) (NaN :: c).
Proof. done. Qed.

Lemma shift_m1_eq (c : list xnum) :
  shift (-1) c = drop 1 c ++ replicate (min (length c) 1) NaN.
Proof. done. Qed.

Lemma shift_1_first (c : list xnum) : 0 < length c -> shift 1 c !! 0 = Some NaN.
Proof. destruct c; simpl; [lia | done]. Qed.

Lemma shift_1_next (c : list xnum) (i : nat) :
  S i < length c -> shift 1 c !! S i = c !! i.
Proof.
  intros Hi. rewrite shift_1_eq, lookup_take_lt by done. done.
Qed.

Lemma shift_m1_prev (c : list xnum) (i : nat) :
  S i < length c -> shift (-1) c !! i = c !! S i.
Proof.
  intros Hi. rewrite shift_m1_eq.
  rewrite lookup_app_l by (rewrite length_drop; lia).
  by rewrite lookup_drop.
Qed.

Lemma shift_m1_last (c : list xnum) (i : nat) :
  S i = length c -> shift (-1) c !! i = Some NaN.
Proof.
  intros Hi. rewrite shift_m1_eq.
  rewrite lookup_app_r by (rewrite length_drop; lia).
  rewrite length_drop. apply lookup_replicate_2. lia.
Qed.

Lemma np_select_lookup {A : Type} (n : nat) (condlist : list (list bool))
    (choicelist : list A) (d : A) (i : nat) :
  i < n ->
  np_select n condlist choicelist d !! i
  = Some (select_at ((fun c => nth i c false) <$> condlist) choicelist d).
Proof.
  intros Hi. unfold np_select. by rewrite list_lookup_fmap, lookup_seq_lt.
Qed.

Lemma length_np_select {A : Type} (n : nat) (condlist : list (list bool))
    (choicelist : list A) (d : A) :
  length (np_select n condlist choicelist d) = n.
Proof. unfold np_select. by rewrite length_fmap, length_seq. Qed.

Lemma select_remarks_lookup (n : nat) (dly avgdel action avgaction : list xnum)
    (i : nat) (x1 x2 x3 x4 : xnum) :
  i < n ->
  dly !! i = Some x1 -> avgdel !! i = Some x2 ->
  action !! i = Some x3 -> avgaction !! i = Some x4 ->
  select_remarks n dly avgdel action avgaction !! i = Some (remark_rule x1 x2 x3 x4).
Proof.
  intros Hi H1 H2 H3 H4. unfold select_remarks.
  rewrite np_select_lookup by done. f_equal. simpl.
  unfold col_and, col_gt, col_lt. rewrite !nth_lookup, !lookup_zip_with.
  rewrite H1, H2, H3, H4. simpl. unfold remark_rule.
  repeat (destruct (_ && _); [done|]). done.
Qed.

(** ** The stages of a run *)

Lemma enrich_Ok (df : frame) (e : enriched) :
  enrich df = Ok e ->
  exists a d,
    let action := col_round2 (col_div (TotalTradedQuantity df) (No_ofTrades df)) in
    let n := length (index df) in
    scalar_round2 (mean_skipna action) = Ok a
    /\ scalar_round2 (mean_skipna (pct_DlyQttoTradedQty df)) = Ok d
    /\ base e = df
    /\ ACTION e = action
    /\ avgACTION e = replicate n a
    /\ avg_pct_DEL e = replicate n d
    /\ pct_chngACT e = pct_of action (replicate n a)
    /\ pct_chngDEL e = pct_of (pct_DlyQttoTradedQty df) (replicate n d)
    /\ SHIFT e = shift 1 (ClosePrice df)
    /\ pct_iCHANGE e = pct_of (shift 1 (ClosePrice df)) (ClosePrice df)
    /\ pct_CHANGE e = col_round2 (shift (-1) (pct_of (shift 1 (ClosePrice df)) (ClosePrice df)))
    /\ REMARKS e = select_remarks n (pct_DlyQttoTradedQty df) (replicate n d) action (replicate n a).
Proof.
  unfold enrich.
  destruct (scalar_round2 (mean_skipna (col_round2 _))) as [a|] eqn:Ha; simpl; [|done].
  destruct (scalar_round2 (mean_skipna (pct_DlyQttoTradedQty df))) as [d|] eqn:Hd;
    simpl; [|done].
  intros [= <-]. exists a, d. simpl. by repeat split.
Qed.

Lemma analyze_Ok (provider_df : list raw_row) (o : output) :
  analyze provider_df = Ok o ->
  enrich (select_and_clean (sort_index_desc provider_df)) = Ok (out_df o)
  /\ out_chart o = build_chart (df_plot (out_df o))
  /\ out_table o = df_display (out_df o).
Proof.
  unfold analyze. destruct (enrich _) as [e|]; simpl; [|done].
  by intros [= <-].
Qed.

(** The run completes as soon as one action and one delivery percentage of
    the batch are known. *)
Lemma mean_round2_Ok (col : list xnum) (x : xnum) :
  x ∈ col -> x <> NaN -> exists a, scalar_round2 (mean_skipna col) = Ok a.
Proof.
  intros Hin Hx. unfold mean_skipna.
  destruct (List.filter notna col) as [|v vals] eqn:E; [|by eexists].
  assert (Hf : In x (List.filter notna col)).
  { apply filter_In. split; [by apply list_elem_of_In|]. by destruct x. }
  rewrite E in Hf. destruct Hf.
Qed.

Lemma analyze_completes (provider_df : list raw_row) (a d : xnum) :
  let df := select_and_clean (sort_index_desc provider_df) in
  a ∈ col_round2 (col_div (TotalTradedQuantity df) (No_ofTrades df)) -> a <> NaN ->
  d ∈ pct_DlyQttoTradedQty df -> d <> NaN ->
  exists o, analyze provider_df = Ok o.
Proof.
  intros df Ha Hna Hd Hnd. unfold analyze, enrich. fold df.
  destruct (mean_round2_Ok _ _ Ha Hna) as (a' & ->).
  destruct (mean_round2_Ok _ _ Hd Hnd) as (d' & ->).
  simpl. by eexists.
Qed.

Lemma aligned_select_and_clean (rows : list raw_row) : aligned (select_and_clean rows).
Proof. unfold aligned. simpl. by rewrite !length_fmap. Qed.

Lemma insert_desc_perm (r : raw_row) (l : list raw_row) : insert_desc r l ≡ₚ r :: l.
Proof.
  induction l as [|h t IH]; simpl; [done|].
  destruct (r_index h <=? r_index r)%Z; [done|].
  rewrite IH. apply Permutation_swap.
Qed.

Lemma sort_index_desc_perm (rows : list raw_row) : sort_index_desc rows ≡ₚ rows.
Proof.
  induction rows as [|r rows IH]; simpl; [done|].
  by rewrite insert_desc_perm, IH.
Qed.

Lemma length_sort_index_desc (rows : list raw_row) :
  length (sort_index_desc rows) = length rows.
Proof. by rewrite sort_index_desc_perm. Qed.

Lemma insert_desc_sorted (r : raw_row) (l : list raw_row) :
  descending (r_index <$> l) -> descending (r_index <$> insert_desc r l).
Proof.
  unfold descending. induction l as [|h t IH]; simpl; intros Hs.
  - repeat constructor.
  - apply StronglySorted_cons in Hs as [Hh Ht].
    destruct (r_index h <=? r_index r)%Z eqn:E.
    + apply Z.leb_le in E. rewrite !fmap_cons.
      apply StronglySorted_cons. split.
      * constructor; [done|]. eapply Forall_impl; [exact Hh|]. simpl. lia.
      * by apply StronglySorted_cons.
    + apply Z.leb_gt in E. rewrite fmap_cons.
      apply StronglySorted_cons. split; [|by apply IH].
      rewrite insert_desc_perm, fmap_cons. constructor; [lia|done].
Qed.

Lemma sort_index_desc_sorted (rows : list raw_row) :
  descending (r_index <$> sort_index_desc rows).
Proof.
  induction rows as [|r rows IH]; simpl.
  - constructor.
  - by apply insert_desc_sorted.
Qed.

Lemma aligned_lookups (df : frame) (i : nat) :
  aligned df -> i < length (index df) ->
  exists c q t dly,
    ClosePrice df !! i = Some c
    /\ TotalTradedQuantity df !! i = Some q
    /\ No_ofTrades df !! i = Some t
    /\ pct_DlyQttoTradedQty df !! i = Some dly.
Proof.
  intros (_ & _ & Hc & Hq & Ht & Hd) Hi.
  destruct (lookup_lt_is_Some_2 (ClosePrice df) i) as [c ?]; [lia|].
  destruct (lookup_lt_is_Some_2 (TotalTradedQuantity df) i) as [q ?]; [lia|].
  destruct (lookup_lt_is_Some_2 (No_ofTrades df) i) as [t ?]; [lia|].
  destruct (lookup_lt_is_Some_2 (pct_DlyQttoTradedQty df) i) as [dly ?]; [lia|].
  by exists c, q, t, dly.
Qed.

Lemma pct_of_lookup (a b : list xnum) (i : nat) (x y : xnum) :
  a !! i = Some x -> b !! i = Some y ->
  pct_of a b !! i = Some (round2 (xmul (xdiv (xsub x y) y) (Fin 100))).
Proof.
  intros Ha Hb. unfold pct_of, col_round2, col_times, col_div, col_sub.
  rewrite !list_lookup_fmap, !lookup_zip_with, Ha, Hb. simpl. done.
Qed.

Lemma action_lookup (qty trades : list xnum) (i : nat) (q t : xnum) :
  qty !! i = Some q -> trades !! i = Some t ->
  col_round2 (col_div qty trades) !! i = Some (round2 (xdiv q t)).
Proof.
  intros Hq Ht. unfold col_round2, col_div.
  by rewrite list_lookup_fmap, lookup_zip_with, Hq, Ht.
Qed.

(** ** Remarks *)

Lemma remark_rule_in (dly avgdel action avgaction : xnum) :
  remark_rule dly avgdel action avgaction ∈ remarks.
Proof.
  unfold remark_rule, remarks.
  repeat (destruct (_ && _); [rewrite !elem_of_cons; tauto|]).
  rewrite !elem_of_cons; tauto.
Qed.

Lemma remark_rule_unknown (dly avgdel action avgaction : xnum) :
  dly = NaN \/ avgdel = NaN \/ action = NaN \/ avgaction = NaN ->
  remark_rule dly avgdel action avgaction = "NA".
Proof.
  unfold remark_rule, xgt.
  intros [-> | [-> | [-> | ->]]]; rewrite ?xlt_NaN_l, ?xlt_NaN_r, ?andb_false_r; done.
Qed.

Lemma remark_rule_equal (dly avgdel action avgaction : xnum) :
  xeq dly avgdel \/ xeq action avgaction ->
  remark_rule dly avgdel action avgaction = "NA".
Proof.
  unfold remark_rule, xgt. intros [H|H].
  - rewrite (xlt_xeq _ _ H), (xlt_xeq _ _ (xeq_sym _ _ H)). done.
  - rewrite (xlt_xeq _ _ H), (xlt_xeq _ _ (xeq_sym _ _ H)), !andb_false_r. done.
Qed.

Lemma remarks_NoDup : NoDup remarks.
Proof. by apply (bool_decide_unpack _). Qed.

(** C1: for every record of a batch the remark follows the fixed priority
    rule over the record's delivery percentage and action and the two batch
    averages: ACC(G-LZ), then BR(G-HZ), then JACKPOT, otherwise NA; it is one
    of the four (distinct) categories, and it is NA whenever an operand is
    unknown or a metric equals its batch average. *)
Theorem C1_remark_by_priority_rule (provider_df : list raw_row) (o : output) (i : nat) :
  analyze provider_df = Ok o ->
  i < length provider_df ->
  exists dly avgdel action avgaction,
    pct_DlyQttoTradedQty (base (out_df o)) !! i = Some dly
    /\ avg_pct_DEL (out_df o) !! i = Some avgdel
    /\ ACTION (out_df o) !! i = Some action
    /\ avgACTION (out_df o) !! i = Some avgaction
    /\ REMARKS (out_df o) !! i = Some (remark_rule dly avgdel action avgaction)
    /\ remark_rule dly avgdel action avgaction ∈ remarks
    /\ NoDup remarks
    /\ (dly = NaN \/ avgdel = NaN \/ action = NaN \/ avgaction = NaN ->
        REMARKS (out_df o) !! i = Some "NA")
    /\ (xeq dly avgdel \/ xeq action avgaction ->
        REMARKS (out_df o) !! i = Some "NA").
Proof.
  intros Hrun Hi. apply analyze_Ok in Hrun as (Hen & _ & _).
  set (df := select_and_clean (sort_index_desc provider_df)) in *.
  assert (Hn : length (index df) = length provider_df).
  { unfold df. simpl. by rewrite length_fmap, length_sort_index_desc. }
  destruct (aligned_lookups df i) as (c & q & t & dly & Hc & Hq & Ht & Hd);
    [apply aligned_select_and_clean | lia |].
  apply enrich_Ok in Hen
    as (a & d & _ & _ & Hb & HA & HaA & HaD & _ & _ & _ & _ & _ & HR).
  rewrite Hb, HA, HaA, HaD, HR.
  assert (HRi : select_remarks (length (index df)) (pct_DlyQttoTradedQty df)
                  (replicate (length (index df)) d)
                  (col_round2 (col_div (TotalTradedQuantity df) (No_ofTrades df)))
                  (replicate (length (index df)) a) !! i
                = Some (remark_rule dly d (round2 (xdiv q t)) a)).
  { apply select_remarks_lookup; try done; try lia.
    - apply lookup_replicate_2. lia.
    - by apply action_lookup.
    - apply lookup_replicate_2. lia. }
  exists dly, d, (round2 (xdiv q t)), a.
  split; [done|]. split; [apply lookup_replicate_2; lia|].
  split; [by apply action_lookup|]. split; [apply lookup_replicate_2; lia|].
  split; [done|]. split; [apply remark_rule_in|]. split; [apply remarks_NoDup|].
  split; intros H; rewrite HRi; f_equal.
  - by apply remark_rule_unknown.
  - by apply remark_rule_equal.
Qed.

Lemma C1_witness :
  exists o, analyze four_days = Ok o
    /\ exists dly avgdel action avgaction,
    pct_DlyQttoTradedQty (base (out_df o)) !! 1 = Some dly
    /\ avg_pct_DEL (out_df o) !! 1 = Some avgdel
    /\ ACTION (out_df o) !! 1 = Some action
    /\ avgACTION (out_df o) !! 1 = Some avgaction
    /\ REMARKS (out_df o) !! 1 = Some (remark_rule dly avgdel action avgaction)
    /\ remark_rule dly avgdel action avgaction ∈ remarks
    /\ NoDup remarks
    /\ (dly = NaN \/ avgdel = NaN \/ action = NaN \/ avgaction = NaN ->
        REMARKS (out_df o) !! 1 = Some "NA")
    /\ (xeq dly avgdel \/ xeq action avgaction ->
        REMARKS (out_df o) !! 1 = Some "NA").
Proof.
  on_sample_run.
  apply (C1_remark_by_priority_rule four_days); [computed | simpl; lia].
Defined.

Lemma select_remarks_three_guards_eq (n : nat) (dly avgdel action avgaction : list xnum) :
  select_remarks n dly avgdel action avgaction
  = select_remarks_three_guards n dly avgdel action avgaction.
Proof.
  unfold select_remarks, select_remarks_three_guards, np_select.
  apply list_fmap_ext. intros _ i _. simpl.
  repeat (destruct (nth i _ false); [done|]). done.
Qed.

(** C9: the fourth guard (delivery% below its average and action below its
    average, giving NA) is redundant: on every batch the remarks column the
    program computes equals the one computed from the ACC(G-LZ), BR(G-HZ)
    and JACKPOT guards alone with default NA. *)
Theorem C9_fourth_guard_redundant (provider_df : list raw_row) (o : output) :
  analyze provider_df = Ok o ->
  REMARKS (out_df o)
  = select_remarks_three_guards (length provider_df)
      (pct_DlyQttoTradedQty (base (out_df o))) (avg_pct_DEL (out_df o))
      (ACTION (out_df o)) (avgACTION (out_df o)).
Proof.
  intros Hrun. apply analyze_Ok in Hrun as (Hen & _ & _).
  apply enrich_Ok in Hen
    as (a & d & _ & _ & Hb & HA & HaA & HaD & _ & _ & _ & _ & _ & HR).
  rewrite HR, Hb, HA, HaA, HaD, select_remarks_three_guards_eq. simpl.
  by rewrite length_fmap, length_sort_index_desc.
Qed.

Lemma C9_witness :
  exists o, analyze four_days = Ok o
    /\ REMARKS (out_df o)
       = select_remarks_three_guards (length four_days)
           (pct_DlyQttoTradedQty (base (out_df o))) (avg_pct_DEL (out_df o))
           (ACTION (out_df o)) (avgACTION (out_df o)).
Proof.
  on_sample_run.
  apply (C9_fourth_guard_redundant four_days). computed.
Defined.

(** ** Price changes *)

Lemma length_pct_of (a b : list xnum) :
  length a = length b -> length (pct_of a b) = length b.
Proof.
  intros H. unfold pct_of, col_round2, col_times, col_div, col_sub.
  rewrite !length_fmap, !length_zip_with. lia.
Qed.

Lemma run_rows (provider_df : list raw_row) (o : output) :
  analyze provider_df = Ok o ->
  aligned (base (out_df o))
  /\ length (index (base (out_df o))) = length provider_df
  /\ index (base (out_df o)) = r_index <$> sort_index_desc provider_df.
Proof.
  intros Hrun. apply analyze_Ok in Hrun as (Hen & _ & _).
  apply enrich_Ok in Hen as (a & d & _ & _ & Hb & _).
  rewrite Hb. split; [apply aligned_select_and_clean|]. simpl.
  by rewrite length_fmap, length_sort_index_desc.
Qed.

Lemma run_price_columns (provider_df : list raw_row) (o : output) :
  analyze provider_df = Ok o ->
  let close := ClosePrice (base (out_df o)) in
  length close = length provider_df
  /\ SHIFT (out_df o) = shift 1 close
  /\ pct_iCHANGE (out_df o) = pct_of (shift 1 close) close
  /\ pct_CHANGE (out_df o) = col_round2 (shift (-1) (pct_of (shift 1 close) close)).
Proof.
  intros Hrun. destruct (run_rows _ _ Hrun) as ((_ & _ & Hc & _) & Hn & _).
  apply analyze_Ok in Hrun as (Hen & _ & _).
  apply enrich_Ok in Hen as (a & d & _ & _ & Hb & _ & _ & _ & _ & _ & HS & Hi & HC & _).
  simpl. rewrite Hb in *. split; [lia|]. done.
Qed.

Lemma shift_1_lookup (c : list xnum) (i : nat) :
  i < length c ->
  exists prior, shift 1 c !! i = Some prior
    /\ (i = 0 -> prior = NaN)
    /\ (forall j, i = S j -> c !! j = Some prior).
Proof.
  intros Hi. destruct i as [|j].
  - exists NaN. split; [by apply shift_1_first|]. split; [done|]. intros j [=].
  - destruct (lookup_lt_is_Some_2 c j) as [x Hx]; [lia|].
    exists x. split; [by rewrite shift_1_next|]. split; [done|].
    by intros ? [= <-].
Qed.

(** C2 (as the program has it): in the descending sequence the prior
    close of record i is the close of the record immediately before i (the
    chronologically next day) and is undefined for the newest record; the
    inverse change is (prior_close - close) / close * 100 rounded to 2
    decimals.  For closes 100, 102, 99, 105 (newest first) the inverse
    changes are undefined, -1.96, 3.03 and -5.71. *)
Theorem C2_prior_close_is_preceding_record :
  (forall (provider_df : list raw_row) (o : output) (i : nat) (c : xnum),
      analyze provider_df = Ok o ->
      ClosePrice (base (out_df o)) !! i = Some c ->
      exists prior,
        SHIFT (out_df o) !! i = Some prior
        /\ (i = 0 -> prior = NaN)
        /\ (forall j, i = S j -> ClosePrice (base (out_df o)) !! j = Some prior)
        /\ pct_iCHANGE (out_df o) !! i
           = Some (round2 (xmul (xdiv (xsub prior c) c) (Fin 100))))
  /\ (exists o, analyze four_days = Ok o
        /\ Forall2 xeq (ClosePrice (base (out_df o))) [Fin 100; Fin 102; Fin 99; Fin 105]
        /\ pct_iCHANGE (out_df o)
           = [NaN; Fin (-196 # 100); Fin (303 # 100); Fin (-571 # 100)]).
Proof.
  split.
  - intros provider_df o i c Hrun Hc.
    destruct (run_price_columns _ _ Hrun) as (Hlen & HS & Hi & _).
    destruct (shift_1_lookup (ClosePrice (base (out_df o))) i)
      as (prior & Hp & H0 & HSj); [by eapply lookup_lt_Some|].
    exists prior. rewrite HS, Hi. split; [done|]. split; [done|]. split; [done|].
    by apply pct_of_lookup.
  - eexists. split; [computed|]. split.
    + vm_compute. repeat constructor.
    + computed.
Qed.

Lemma C2_witness :
  exists o c, analyze four_days = Ok o
    /\ ClosePrice (base (out_df o)) !! 1 = Some c
    /\ exists prior,
        SHIFT (out_df o) !! 1 = Some prior
        /\ (1 = 0 -> prior = NaN)
        /\ (forall j, 1 = S j -> ClosePrice (base (out_df o)) !! j = Some prior)
        /\ pct_iCHANGE (out_df o) !! 1
           = Some (round2 (xmul (xdiv (xsub prior c) c) (Fin 100))).
Proof.
  eexists. on_sample_run.
  split; [computed|].
  apply (proj1 C2_prior_close_is_preceding_record four_days);
    computed.
Defined.

(** On closes 100, 102, 99, 105 (newest first) the prior close of the
    100-row is undefined rather than 102, its inverse change is undefined
    rather than 2.00, and the oldest record (105) has a prior close, 99. *)
Lemma C2_counterexample :
  exists o, analyze four_days = Ok o
    /\ Forall2 xeq (ClosePrice (base (out_df o))) [Fin 100; Fin 102; Fin 99; Fin 105]
    /\ SHIFT (out_df o) !! 0 = Some NaN
    /\ pct_iCHANGE (out_df o) !! 0 = Some NaN
    /\ ~ (exists v, pct_iCHANGE (out_df o) !! 0 = Some v /\ xeq v (Fin 2))
    /\ (exists v, SHIFT (out_df o) !! 3 = Some v /\ xeq v (Fin 99)).
Proof.
  on_sample_run.
  split; [vm_compute; repeat constructor|].
  split; [computed|].
  split; [computed|].
  split.
  - intros (v & Hv & Hx). vm_compute in Hv. injection Hv as <-. exact Hx.
  - eexists. split; [computed|]. computed.
Qed.

(** C3 (as the program has it): the forward change of record i is the
    inverse change of record i+1, one position later in the descending
    sequence (the chronologically previous day), that is the change of
    close i against close i+1 in percent; it is undefined (NaN, not zero)
    for the oldest record, the last of the sequence. *)
Theorem C3_forward_change_is_next_inverse_change
    (provider_df : list raw_row) (o : output) (i : nat) :
  analyze provider_df = Ok o ->
  i < length provider_df ->
  (S i < length provider_df ->
     pct_CHANGE (out_df o) !! i = pct_iCHANGE (out_df o) !! S i
     /\ forall c c', ClosePrice (base (out_df o)) !! i = Some c ->
          ClosePrice (base (out_df o)) !! S i = Some c' ->
          pct_CHANGE (out_df o) !! i
          = Some (round2 (xmul (xdiv (xsub c c') c') (Fin 100))))
  /\ (S i = length provider_df -> pct_CHANGE (out_df o) !! i = Some NaN).
Proof.
  intros Hrun Hi.
  destruct (run_price_columns _ _ Hrun) as (Hlen & HS & HI & HC).
  set (close := ClosePrice (base (out_df o))) in *.
  assert (Hl : length (pct_of (shift 1 close) close) = length provider_df).
  { rewrite length_pct_of; [done|]. apply length_shift. }
  rewrite HC, HI. unfold col_round2. rewrite list_lookup_fmap. split.
  - intros HSi. rewrite shift_m1_prev by lia.
    destruct (lookup_lt_is_Some_2 close (S i)) as [c' Hc']; [lia|].
    destruct (lookup_lt_is_Some_2 close i) as [c Hc]; [lia|].
    assert (Hp : shift 1 close !! S i = Some c) by (rewrite shift_1_next; [done|lia]).
    rewrite (pct_of_lookup _ _ _ _ _ Hp Hc'). simpl. rewrite round2_idem.
    split; [done|]. intros c0 c0' H0 H0'. congruence.
  - intros HSi. rewrite shift_m1_last by lia. done.
Qed.

Lemma C3_witness :
  exists o, analyze four_days = Ok o
    /\ (2 < length four_days ->
        pct_CHANGE (out_df o) !! 1 = pct_iCHANGE (out_df o) !! 2
        /\ forall c c', ClosePrice (base (out_df o)) !! 1 = Some c ->
             ClosePrice (base (out_df o)) !! 2 = Some c' ->
             pct_CHANGE (out_df o) !! 1
             = Some (round2 (xmul (xdiv (xsub c c') c') (Fin 100))))
    /\ (2 = length four_days -> pct_CHANGE (out_df o) !! 1 = Some NaN).
Proof.
  on_sample_run.
  apply (C3_forward_change_is_next_inverse_change four_days);
    [computed | simpl; lia].
Defined.

(** On closes 100, 102, 99, 105 (newest first) the forward change of the
    newest record is -1.96, not blank; the forward change of the second
    record is 3.03 while the inverse change one position earlier is
    undefined; and the blank is on the oldest record. *)
Lemma C3_counterexample :
  exists o, analyze four_days = Ok o
    /\ pct_CHANGE (out_df o) !! 0 = Some (Fin (-196 # 100))
    /\ pct_CHANGE (out_df o) !! 1 = Some (Fin (303 # 100))
    /\ pct_iCHANGE (out_df o) !! 0 = Some NaN
    /\ pct_CHANGE (out_df o) !! 1 <> pct_iCHANGE (out_df o) !! 0
    /\ pct_CHANGE (out_df o) !! 3 = Some NaN.
Proof.
  on_sample_run.
  repeat split; try computed.
  vm_compute. discriminate.
Qed.

(** ** Ratios *)

Lemma pct_value_unknown_divisor (x : xnum) :
  round2 (xmul (xdiv (xsub x NaN) NaN) (Fin 100)) = NaN.
Proof. by rewrite xdiv_NaN_r. Qed.

Lemma pct_value_zero_divisor (x dv : xnum) :
  xeq dv (Fin 0) ->
  let v := round2 (xmul (xdiv (xsub x dv) dv) (Fin 100)) in
  v = NaN \/ is_inf v = true.
Proof.
  intros Hz v. subst v.
  destruct (xdiv_zero (xsub x dv) dv Hz) as [-> | Hinf]; [by left|].
  right. rewrite round2_is_inf. by apply xmul_100_inf.
Qed.

Lemma pct_of_divisor (a b : list xnum) (i : nat) (dv : xnum) :
  length a = length b ->
  b !! i = Some dv ->
  exists v, pct_of a b !! i = Some v
    /\ (dv = NaN -> v = NaN)
    /\ (xeq dv (Fin 0) -> v = NaN \/ is_inf v = true).
Proof.
  intros Hlen Hb.
  destruct (lookup_lt_is_Some_2 a i) as [x Hx].
  { rewrite Hlen. by eapply lookup_lt_Some. }
  eexists. split; [by apply pct_of_lookup|]. split.
  - intros ->. apply pct_value_unknown_divisor.
  - apply pct_value_zero_divisor.
Qed.

(** C4 (as the program has it): action is the float quotient of quantity
    by number of trades rounded to 2 decimals.  It is unknown when the
    number of trades is unknown, and when the number of trades is 0 and the
    quantity is 0 or unknown; when the number of trades is 0 and the
    quantity is a known nonzero number it is an infinity, not unknown.  The
    three percentage columns have a value for every record, unknown when
    their divisor is unknown and unknown or infinite when it is zero; none
    of these computations raises. *)
Theorem C4_ratios_follow_float_division
    (provider_df : list raw_row) (o : output) (i : nat) (q t : xnum) :
  analyze provider_df = Ok o ->
  TotalTradedQuantity (base (out_df o)) !! i = Some q ->
  No_ofTrades (base (out_df o)) !! i = Some t ->
  ACTION (out_df o) !! i = Some (round2 (xdiv q t))
  /\ (t = NaN -> ACTION (out_df o) !! i = Some NaN)
  /\ (xeq t (Fin 0) -> q = NaN \/ xeq q (Fin 0) -> ACTION (out_df o) !! i = Some NaN)
  /\ (xeq t (Fin 0) -> q <> NaN -> ~ xeq q (Fin 0) ->
      exists a, ACTION (out_df o) !! i = Some a /\ is_inf a = true)
  /\ (forall col divisor,
        (col, divisor) ∈ [ (pct_chngACT (out_df o), avgACTION (out_df o));
                           (pct_chngDEL (out_df o), avg_pct_DEL (out_df o));
                           (pct_iCHANGE (out_df o), ClosePrice (base (out_df o))) ] ->
        exists v dv, col !! i = Some v /\ divisor !! i = Some dv
          /\ (dv = NaN -> v = NaN)
          /\ (xeq dv (Fin 0) -> v = NaN \/ is_inf v = true)).
Proof.
  intros Hrun Hq Ht.
  destruct (run_rows _ _ Hrun) as (Hal & Hn & _).
  assert (Hi : i < length (index (base (out_df o)))).
  { destruct Hal as (_ & _ & _ & Hlq & _). rewrite <- Hlq. by eapply lookup_lt_Some. }
  destruct (aligned_lookups _ i Hal Hi) as (c & _ & _ & dly & Hc & _ & _ & Hd).
  pose proof Hal as (_ & _ & Hlc & Hlq & Hlt & Hld).
  apply analyze_Ok in Hrun as (Hen & _ & _).
  apply enrich_Ok in Hen
    as (a & d & _ & _ & Hb & HA & HaA & HaD & HcA & HcD & _ & HiC & _ & _).
  rewrite Hb in *.
  set (df := select_and_clean (sort_index_desc provider_df)) in *.
  assert (HAi : ACTION (out_df o) !! i = Some (round2 (xdiv q t))).
  { rewrite HA. by apply action_lookup. }
  split; [done|]. split; [|split; [|split]].
  - intros ->. by rewrite HAi, xdiv_NaN_r.
  - intros Hz Hq0. by rewrite HAi, (xdiv_zero_zero q t Hz Hq0).
  - intros Hz Hq1 Hq2. eexists. split; [exact HAi|].
    rewrite round2_is_inf. by apply xdiv_zero_nonzero.
  - intros col divisor Hin.
    assert (Hcases : (col = pct_chngACT (out_df o) /\ divisor = avgACTION (out_df o))
                     \/ (col = pct_chngDEL (out_df o) /\ divisor = avg_pct_DEL (out_df o))
                     \/ (col = pct_iCHANGE (out_df o) /\ divisor = ClosePrice df)).
    { apply elem_of_cons in Hin as [[= -> ->] | Hin]; [by left|].
      apply elem_of_cons in Hin as [[= -> ->] | Hin]; [by right; left|].
      apply elem_of_cons in Hin as [[= -> ->] | Hin]; [by right; right|].
      by apply elem_of_nil in Hin. }
    destruct Hcases as [[-> ->] | [[-> ->] | [-> ->]]].
    + rewrite HcA, HaA.
      destruct (pct_of_divisor
                  (col_round2 (col_div (TotalTradedQuantity df) (No_ofTrades df)))
                  (replicate (length (index df)) a) i a) as (v & Hv & H1 & H2).
      * unfold col_round2, col_div.
        rewrite length_fmap, length_zip_with, length_replicate. lia.
      * by apply lookup_replicate_2.
      * exists v, a. split; [done|]. split; [by apply lookup_replicate_2|]. done.
    + rewrite HcD, HaD.
      destruct (pct_of_divisor (pct_DlyQttoTradedQty df)
                  (replicate (length (index df)) d) i d) as (v & Hv & H1 & H2).
      * rewrite length_replicate. lia.
      * by apply lookup_replicate_2.
      * exists v, d. split; [done|]. split; [by apply lookup_replicate_2|]. done.
    + rewrite HiC.
      destruct (pct_of_divisor (shift 1 (ClosePrice df)) (ClosePrice df) i c)
        as (v & Hv & H1 & H2); [apply length_shift | done |].
      by exists v, c.
Qed.

Lemma C4_witness :
  exists o q t, analyze four_days = Ok o
  /\ TotalTradedQuantity (base (out_df o)) !! 0 = Some q
  /\ No_ofTrades (base (out_df o)) !! 0 = Some t
  /\ ACTION (out_df o) !! 0 = Some (round2 (xdiv q t))
  /\ (t = NaN -> ACTION (out_df o) !! 0 = Some NaN)
  /\ (xeq t (Fin 0) -> q = NaN \/ xeq q (Fin 0) -> ACTION (out_df o) !! 0 = Some NaN)
  /\ (xeq t (Fin 0) -> q <> NaN -> ~ xeq q (Fin 0) ->
      exists a, ACTION (out_df o) !! 0 = Some a /\ is_inf a = true)
  /\ (forall col divisor,
        (col, divisor) ∈ [ (pct_chngACT (out_df o), avgACTION (out_df o));
                           (pct_chngDEL (out_df o), avg_pct_DEL (out_df o));
                           (pct_iCHANGE (out_df o), ClosePrice (base (out_df o))) ] ->
        exists v dv, col !! 0 = Some v /\ divisor !! 0 = Some dv
          /\ (dv = NaN -> v = NaN)
          /\ (xeq dv (Fin 0) -> v = NaN \/ is_inf v = true)).
Proof.
  eexists. eexists. on_sample_run.
  split; [computed|]. split; [computed|].
  apply (C4_ratios_follow_float_division four_days); computed.
Defined.

(** A day with 1,000 shares reported over 0 trades: the number of trades
    is 0 and the action is +infinity, which is not unknown. *)
Lemma C4_counterexample :
  exists o, analyze no_trade_day = Ok o
    /\ No_ofTrades (base (out_df o)) !! 0 = Some (Fin (0 # 100))
    /\ ACTION (out_df o) !! 0 = Some PInf
    /\ ACTION (out_df o) !! 0 <> Some NaN.
Proof.
  on_sample_run.
  repeat split; try computed.
  vm_compute. discriminate.
Qed.

(** ** Masks *)

Lemma mask_filter_nil_r {A : Type} (mask : list bool) : mask_filter mask (@nil A) = [].
Proof. by destruct mask. Qed.

Lemma mask_filter_sublist {A : Type} (mask : list bool) (c : list A) :
  mask_filter mask c `sublist_of` c.
Proof.
  revert c. induction mask as [|b mask IH]; intros [|x c]; simpl;
    try apply sublist_nil_l.
  destruct b; [apply sublist_skip | apply sublist_cons]; apply IH.
Qed.

Lemma mask_filter_lookup {A : Type} (mask : list bool) (c : list A) (x : A) :
  x ∈ mask_filter mask c -> exists j, mask !! j = Some true /\ c !! j = Some x.
Proof.
  revert c. induction mask as [|b mask IH]; intros [|y c]; simpl;
    try (by intros ?%elem_of_nil).
  destruct b.
  - intros [-> | Hin]%elem_of_cons; [by exists 0|].
    destruct (IH _ Hin) as (j & ? & ?). by exists (S j).
  - intros Hin. destruct (IH _ Hin) as (j & ? & ?). by exists (S j).
Qed.

Lemma mask_filter_zip {A B : Type} (mask : list bool) (a : list A) (b : list B) :
  mask_filter mask (zip a b) = zip (mask_filter mask a) (mask_filter mask b).
Proof.
  revert a b. induction mask as [|m mask IH]; intros [|x a] [|y b]; simpl; try done;
    destruct m; simpl; rewrite ?IH; try done; by destruct (mask_filter mask a).
Qed.

Lemma mask_filter_fmap {A B : Type} (f : A -> bool) (g : A -> B) (rs : list A) :
  mask_filter (f <$> rs) (g <$> rs) = g <$> List.filter f rs.
Proof.
  induction rs as [|r rs IH]; [done|].
  rewrite !fmap_cons. cbn [mask_filter List.filter].
  destruct (f r); [rewrite fmap_cons|]; by rewrite IH.
Qed.

Lemma length_mask_filter {A B : Type} (mask : list bool) (a : list A) (b : list B) :
  length a = length b -> length (mask_filter mask a) = length (mask_filter mask b).
Proof.
  revert a b. induction mask as [|m mask IH]; intros [|x a] [|y b]; simpl; try done.
  intros [= H]. destruct m; simpl; auto.
Qed.

Lemma mask_filter_notna (c : list xnum) :
  Forall (fun x => x <> NaN) (mask_filter (notna <$> c) c).
Proof.
  induction c as [|x c IH]; simpl; [constructor|].
  destruct x; simpl; try done; by constructor.
Qed.

Lemma descending_sublist (l k : list Z) :
  l `sublist_of` k -> descending k -> descending l.
Proof.
  unfold descending. intros Hsub. induction Hsub as [|x l k Hsub IH|x l k Hsub IH].
  - done.
  - intros [Hx Hk]%StronglySorted_cons. apply StronglySorted_cons. split; [|auto].
    rewrite Forall_forall in Hx |- *. intros y Hy. apply Hx.
    by eapply elem_of_sublist.
  - intros [_ Hk]%StronglySorted_cons. auto.
Qed.

(** ** Moving average *)

Lemma ewm_alpha_30 : (ewm_alpha 30 == 2 # 31)%Q.
Proof. reflexivity. Qed.

Lemma Qsign_pos (q : Q) : (0 < q)%Q -> Qsign q = Gt.
Proof.
  unfold Qsign, Qlt. simpl. intros H. apply Z.compare_gt_iff. lia.
Qed.

(** One step of pandas' loop on finite values is the step of the standard
    recursion. *)
Lemma ewm_step_finite (alpha w c : Q) :
  exists y,
    (if xeqb (Fin w) (Fin c) then Fin w
     else xdiv (xadd (xmul (Fin (1 * (1 - alpha))) (Fin w)) (xmul (Fin alpha) (Fin c)))
               (Fin (1 * (1 - alpha) + alpha))) = Fin y
    /\ (y == c * alpha + w * (1 - alpha))%Q.
Proof.
  simpl. destruct (Qeq_bool w c) eqn:E.
  - exists w. split; [done|]. apply Qeq_bool_iff in E. rewrite <- E. ring.
  - assert (Hb : (1 * (1 - alpha) + alpha == 1)%Q) by ring.
    rewrite Qsign_pos by (rewrite Hb; reflexivity).
    eexists. split; [reflexivity|]. unfold Qdiv. rewrite Hb. field.
Qed.

Lemma ewm_loop_finite (alpha : Q) (qs : list Q) (w w' : Q) :
  (w == w')%Q ->
  exists ys, ewm_loop alpha (Fin w) 1 (Fin <$> qs) = Fin <$> ys
    /\ Forall2 Qeq ys (ema_from alpha w' qs).
Proof.
  revert w w'. induction qs as [|c qs IH]; intros w w' Hw.
  - exists []. split; [done|constructor].
  - rewrite fmap_cons. cbn [ewm_loop notna isna negb].
    destruct (ewm_step_finite alpha w c) as (y & -> & Hy).
    destruct (IH y (c * alpha + w' * (1 - alpha))%Q) as (ys & Hys & HF).
    { by rewrite Hy, Hw. }
    exists (y :: ys). rewrite fmap_cons, Hys. split; [done|].
    simpl. constructor; [by rewrite Hy, Hw | done].
Qed.

Lemma inf_to_nan_finite (qs : list Q) : inf_to_nan <$> (Fin <$> qs) = Fin <$> qs.
Proof. induction qs as [|q qs IH]; [done|]. rewrite !fmap_cons. by rewrite IH. Qed.

Lemma ewm_mean_finite (span : Q) (qs : list Q) :
  exists ys, ewm_mean span (Fin <$> qs) = Fin <$> ys
    /\ ys !! 0 = qs !! 0
    /\ Forall2 Qeq ys (ema (ewm_alpha span) qs).
Proof.
  destruct qs as [|c qs].
  - exists []. split; [done|]. split; [done|constructor].
  - destruct (ewm_loop_finite (ewm_alpha span) qs c c) as (ys & Hys & HF); [done|].
    exists (c :: ys). unfold ewm_mean. rewrite inf_to_nan_finite, !fmap_cons, Hys.
    split; [done|]. split; [done|]. simpl. by constructor.
Qed.

Lemma ema_from_step (alpha : Q) (qs : list Q) (prev : Q) (i : nat) (c p : Q) :
  (prev :: ema_from alpha prev qs) !! i = Some p ->
  qs !! i = Some c ->
  ema_from alpha prev qs !! i = Some (c * alpha + p * (1 - alpha))%Q.
Proof.
  revert prev i. induction qs as [|c0 qs IH]; intros prev i Hp Hc; [done|].
  destruct i as [|i]; simpl in *.
  - congruence.
  - by apply IH.
Qed.

Lemma ema_step (alpha : Q) (qs : list Q) (i : nat) (c p : Q) :
  ema alpha qs !! i = Some p ->
  qs !! S i = Some c ->
  ema alpha qs !! S i = Some (c * alpha + p * (1 - alpha))%Q.
Proof.
  destruct qs as [|c0 qs]; [done|]. simpl. apply ema_from_step.
Qed.

(** Close prices read from text are finite or unknown, and then so are
    the plotted ones. *)
Lemma clean_numeric_text (s : string) : is_inf (clean_numeric (CStr s)) = false.
Proof.
  unfold clean_numeric. rewrite round2_is_inf.
  destruct (replace_dash (CStr s)) as [x|s'] eqn:E.
  - unfold replace_dash in E.
    repeat match type of E with
           | context [match ?x with _ => _ end] => destruct x; try discriminate
           end.
    by injection E as <-.
  - simpl. by destruct (parse_decimal _).
Qed.

Lemma mask_notna_finite (c : list xnum) :
  Forall (fun x => is_inf x = false) c ->
  exists qs, mask_filter (notna <$> c) c = Fin <$> qs.
Proof.
  induction c as [|x c IH]; intros HF; [by exists []|].
  apply Forall_cons in HF as [Hx HF]. destruct (IH HF) as (qs & Hqs).
  rewrite fmap_cons.
  destruct x as [q| | |]; try done; cbn [mask_filter notna isna negb]; rewrite Hqs.
  - by exists (q :: qs).
  - by exists qs.
Qed.

Lemma plotted_closes_finite (e : enriched) :
  Forall (fun x => is_inf x = false) (ClosePrice (base e)) ->
  exists qs, p_ClosePrice (df_plot e) = Fin <$> qs.
Proof. apply mask_notna_finite. Qed.

Lemma run_plot_index (provider_df : list raw_row) (o : output) :
  analyze provider_df = Ok o ->
  p_index (df_plot (out_df o))
  = mask_filter (notna <$> ClosePrice (base (out_df o))) (index (base (out_df o)))
  /\ descending (p_index (df_plot (out_df o))).
Proof.
  intros Hrun. split; [done|].
  destruct (run_rows _ _ Hrun) as (_ & _ & Hidx).
  simpl. eapply descending_sublist; [apply mask_filter_sublist|].
  rewrite Hidx. apply sort_index_desc_sorted.
Qed.

(** The 30-period EMA of the close price as the program has it: it is
    computed over the plotted records in the order of the frame, by
    decreasing index label (newest first; the frame is not re-sorted
    before plotting): for finite close prices ema[0] = close[0], the close
    of the first plotted record, and
    ema[i+1] = close[i+1] * alpha + ema[i] * (1 - alpha) with alpha = 2/31,
    without bias adjustment. *)
Theorem ema_over_descending_sequence
    (provider_df : list raw_row) (o : output) (qs : list Q) :
  analyze provider_df = Ok o ->
  p_ClosePrice (df_plot (out_df o)) = Fin <$> qs ->
  descending (p_index (df_plot (out_df o)))
  /\ lines (out_chart o) !! 1
     = Some {| s_label := "30 EMA"; s_color := "orange";
               s_index := p_index (df_plot (out_df o));
               s_x := p_Date (df_plot (out_df o));
               s_y := p_EMA30 (df_plot (out_df o)) |}
  /\ (ewm_alpha 30 == 2 # 31)%Q
  /\ exists ys,
       p_EMA30 (df_plot (out_df o)) = Fin <$> ys
       /\ ys !! 0 = qs !! 0
       /\ forall i c prev,
            qs !! S i = Some c -> ys !! i = Some prev ->
            exists y, ys !! S i = Some y
              /\ (y == c * (2 # 31) + prev * (1 - (2 # 31)))%Q.
Proof.
  intros Hrun Hqs. split; [exact (proj2 (run_plot_index _ _ Hrun))|].
  split. { apply analyze_Ok in Hrun as (_ & -> & _). done. }
  split; [apply ewm_alpha_30|].
  destruct (ewm_mean_finite 30 qs) as (ys & Hys & H0 & HF).
  exists ys. split.
  { change (p_EMA30 (df_plot (out_df o)))
      with (ewm_mean 30 (p_ClosePrice (df_plot (out_df o)))).
    by rewrite Hqs. }
  split; [done|]. intros i c prev Hc Hp.
  destruct (Forall2_lookup_l _ _ _ _ _ HF Hp) as (p' & Hp' & Hpp).
  pose proof (ema_step _ _ _ _ _ Hp' Hc) as Hstep.
  destruct (Forall2_lookup_r _ _ _ _ _ HF Hstep) as (y & Hy & Hyy).
  exists y. split; [done|]. by rewrite Hyy, ewm_alpha_30, Hpp.
Qed.

Lemma ema_over_descending_sequence_witness :
  exists o, analyze four_days = Ok o
  /\ descending (p_index (df_plot (out_df o)))
  /\ lines (out_chart o) !! 1
     = Some {| s_label := "30 EMA"; s_color := "orange";
               s_index := p_index (df_plot (out_df o));
               s_x := p_Date (df_plot (out_df o));
               s_y := p_EMA30 (df_plot (out_df o)) |}
  /\ (ewm_alpha 30 == 2 # 31)%Q
  /\ exists ys,
       p_EMA30 (df_plot (out_df o)) = Fin <$> ys
       /\ ys !! 0 = [10000 # 100; 10200 # 100; 9900 # 100; 10500 # 100]%Q !! 0
       /\ forall i c prev,
            [10000 # 100; 10200 # 100; 9900 # 100; 10500 # 100]%Q !! S i = Some c ->
            ys !! i = Some prev ->
            exists y, ys !! S i = Some y
              /\ (y == c * (2 # 31) + prev * (1 - (2 # 31)))%Q.
Proof.
  on_sample_run.
  apply (ema_over_descending_sequence four_days); computed.
Defined.

(** C5 (what the program does on four days listed from 1 to 6 January):
    the EMA is run over the frame as line 31 left it, newest first, not in
    chronological order.  The plotted sequence runs from 6 January back to
    1 January; the EMA on 6 January is the close of that day, 100.00,
    where the chronological EMA of the four closes is about 104.16; and
    the EMA on 1 January, the oldest day with close 105, is not its
    close. *)
Theorem C5_ema_runs_newest_first :
  exists o, analyze four_days = Ok o
    /\ p_Date (df_plot (out_df o))
       = [ Some {| year := 2025; month := 1; day := 6 |};
           Some {| year := 2025; month := 1; day := 3 |};
           Some {| year := 2025; month := 1; day := 2 |};
           Some {| year := 2025; month := 1; day := 1 |} ]
    /\ p_ClosePrice (df_plot (out_df o))
       = [ Fin (10000 # 100); Fin (10200 # 100); Fin (9900 # 100); Fin (10500 # 100) ]
    /\ p_EMA30 (df_plot (out_df o)) !! 0 = Some (Fin (10000 # 100))
    /\ ~ (exists v, p_EMA30 (df_plot (out_df o)) !! 3 = Some v
                    /\ xeq v (Fin (10500 # 100)))
    /\ (exists c, ema (2 # 31) [105; 99; 102; 100]%Q !! 3 = Some c
          /\ (10415 # 100 < c)%Q /\ (c < 10416 # 100)%Q).
Proof.
  on_sample_run.
  split; [computed|]. split; [computed|]. split; [computed|]. split.
  - intros (v & Hv & Hx). vm_compute in Hv. injection Hv as <-.
    vm_compute in Hx. discriminate.
  - eexists. split; [computed|]. split; computed.
Qed.

(** ** Chart and table *)

Lemma run_lengths (provider_df : list raw_row) (o : output) :
  analyze provider_df = Ok o ->
  let n := length provider_df in
  length (index (base (out_df o))) = n
  /\ length (Symbol (base (out_df o))) = n
  /\ length (Date (base (out_df o))) = n
  /\ length (ClosePrice (base (out_df o))) = n
  /\ length (pct_DlyQttoTradedQty (base (out_df o))) = n
  /\ length (pct_chngACT (out_df o)) = n
  /\ length (pct_chngDEL (out_df o)) = n
  /\ length (pct_CHANGE (out_df o)) = n
  /\ length (REMARKS (out_df o)) = n.
Proof.
  intros Hrun. destruct (run_rows _ _ Hrun) as ((Hs & Hd & Hc & Hq & Ht & Hp) & Hn & _).
  apply analyze_Ok in Hrun as (Hen & _ & _).
  apply enrich_Ok in Hen
    as (a & d & _ & _ & Hb & _ & _ & _ & HcA & HcD & _ & _ & HC & HR).
  rewrite Hb in *. cbv zeta. rewrite HcA, HcD, HC, HR.
  unfold select_remarks, col_round2. rewrite length_np_select, length_fmap, length_shift.
  rewrite !length_pct_of.
  - rewrite !length_replicate. repeat split; lia.
  - apply length_shift.
  - rewrite length_replicate. lia.
  - unfold col_round2, col_div.
    rewrite length_fmap, length_zip_with, length_replicate. lia.
Qed.

Lemma plot_frame_lengths (e : enriched) :
  length (Date (base e)) = length (index (base e)) ->
  length (ClosePrice (base e)) = length (index (base e)) ->
  length (REMARKS e) = length (index (base e)) ->
  length (p_Date (df_plot e)) = length (p_index (df_plot e))
  /\ length (p_ClosePrice (df_plot e)) = length (p_index (df_plot e))
  /\ length (p_REMARKS (df_plot e)) = length (p_index (df_plot e)).
Proof.
  intros Hd Hc Hr. simpl. rewrite length_fmap.
  split; [by apply length_mask_filter|]. split; by apply length_mask_filter.
Qed.

Lemma scatter_points (p : plot_frame) (lc : string * string) :
  length (p_Date p) = length (p_index p) ->
  length (p_ClosePrice p) = length (p_index p) ->
  length (p_REMARKS p) = length (p_index p) ->
  points (scatter_of p lc)
  = fst <$> List.filter (fun r => String.eqb (snd r) (fst lc)) (plot_rows p).
Proof.
  intros Hd Hc Hr. unfold points, scatter_of, plot_rows. simpl.
  set (rows3 := zip (zip (p_index p) (p_Date p)) (p_ClosePrice p)).
  assert (Hl : length rows3 = length (p_REMARKS p)).
  { unfold rows3. rewrite !length_zip_with. lia. }
  rewrite <- !mask_filter_zip. fold rows3.
  rewrite <- (mask_filter_fmap (fun r => String.eqb (snd r) (fst lc)) fst
                (zip rows3 (p_REMARKS p))).
  rewrite fst_zip by lia. f_equal.
  change (fun r : Z * option timestamp * xnum * string => String.eqb (snd r) (fst lc))
    with ((fun r => String.eqb r (fst lc)) ∘ @snd (Z * option timestamp * xnum) string).
  rewrite list_fmap_compose. by rewrite snd_zip by lia.
Qed.

Lemma scatter_index_remark (p : plot_frame) (lc : string * string) (k : Z) :
  k ∈ s_index (scatter_of p lc) ->
  exists j, p_index p !! j = Some k /\ p_REMARKS p !! j = Some (fst lc).
Proof.
  simpl. intros (j & Hm & Hk)%mask_filter_lookup. exists j. split; [done|].
  rewrite list_lookup_fmap in Hm.
  destruct (p_REMARKS p !! j) as [r|]; [|done]. simpl in Hm.
  injection Hm as Hm. apply String.eqb_eq in Hm. by subst.
Qed.

Lemma run_index_NoDup (provider_df : list raw_row) (o : output) :
  analyze provider_df = Ok o ->
  NoDup (r_index <$> provider_df) ->
  NoDup (index (base (out_df o))) /\ NoDup (p_index (df_plot (out_df o))).
Proof.
  intros Hrun Hnd. destruct (run_rows _ _ Hrun) as (_ & _ & Hidx).
  assert (H : NoDup (index (base (out_df o)))).
  { by rewrite Hidx, sort_index_desc_perm. }
  split; [done|]. simpl. eapply sublist_NoDup; [done | apply mask_filter_sublist].
Qed.

Lemma colors_labels (lc : string * string) :
  lc ∈ colors -> fst lc <> "NA".
Proof.
  unfold colors. rewrite !elem_of_cons, elem_of_nil.
  intros [-> | [-> | [-> | []]]]; done.
Qed.

(** C6 (as the program has it): the chart input is the records that
    have a close price, in the order of the frame; a record whose date
    cannot be parsed stays in it with an undefined date.  The chart has
    exactly one scatter series for each of JACKPOT, ACC(G-LZ) and
    BR(G-HZ), holding precisely the date/close points of the plotted
    records whose remark is the label of the series; a record with remark
    NA is in no scatter series. *)
Theorem C6_chart_input_and_markers (provider_df : list raw_row) (o : output) :
  analyze provider_df = Ok o ->
  p_index (df_plot (out_df o))
  = mask_filter (notna <$> ClosePrice (base (out_df o))) (index (base (out_df o)))
  /\ p_Date (df_plot (out_df o))
     = to_datetime
         <$> mask_filter (notna <$> ClosePrice (base (out_df o))) (Date (base (out_df o)))
  /\ Forall (fun x => x <> NaN) (p_ClosePrice (df_plot (out_df o)))
  /\ (forall s, s ∈ lines (out_chart o) ->
        s_index s = p_index (df_plot (out_df o)) /\ s_x s = p_Date (df_plot (out_df o)))
  /\ s_label <$> scatters (out_chart o) = ["JACKPOT"; "ACC(G-LZ)"; "BR(G-HZ)"]
  /\ (forall s, s ∈ scatters (out_chart o) ->
        points s
        = fst <$> List.filter (fun r => String.eqb (snd r) (s_label s))
                    (plot_rows (df_plot (out_df o))))
  /\ (NoDup (r_index <$> provider_df) ->
      forall j k,
        p_index (df_plot (out_df o)) !! j = Some k ->
        p_REMARKS (df_plot (out_df o)) !! j = Some "NA" ->
        forall s, s ∈ scatters (out_chart o) -> k ∉ s_index s).
Proof.
  intros Hrun.
  destruct (run_lengths _ _ Hrun) as (Hn & _ & Hd & Hc & _ & _ & _ & _ & Hr).
  destruct (plot_frame_lengths (out_df o)) as (Hpd & Hpc & Hpr); [lia..|].
  pose proof (analyze_Ok _ _ Hrun) as (_ & Hchart & _).
  split; [done|]. split; [done|]. split; [apply mask_filter_notna|].
  rewrite Hchart. split.
  { intros s. simpl. rewrite !elem_of_cons, elem_of_nil.
    intros [-> | [-> | []]]; done. }
  split; [done|]. split.
  - intros s (lc & -> & _)%list_elem_of_fmap. by apply scatter_points.
  - intros Hnd j k Hk Hna s (lc & -> & Hlc)%list_elem_of_fmap Hin.
    apply scatter_index_remark in Hin as (j' & Hk' & Hr').
    destruct (run_index_NoDup _ _ Hrun Hnd) as (_ & Hndp).
    assert (j' = j) as -> by (eapply NoDup_lookup; eauto).
    apply (colors_labels lc Hlc). congruence.
Qed.

Lemma C6_witness :
  exists o, analyze four_days = Ok o
  /\ p_index (df_plot (out_df o))
     = mask_filter (notna <$> ClosePrice (base (out_df o))) (index (base (out_df o)))
  /\ p_Date (df_plot (out_df o))
     = to_datetime
         <$> mask_filter (notna <$> ClosePrice (base (out_df o))) (Date (base (out_df o)))
  /\ Forall (fun x => x <> NaN) (p_ClosePrice (df_plot (out_df o)))
  /\ (forall s, s ∈ lines (out_chart o) ->
        s_index s = p_index (df_plot (out_df o)) /\ s_x s = p_Date (df_plot (out_df o)))
  /\ s_label <$> scatters (out_chart o) = ["JACKPOT"; "ACC(G-LZ)"; "BR(G-HZ)"]
  /\ (forall s, s ∈ scatters (out_chart o) ->
        points s
        = fst <$> List.filter (fun r => String.eqb (snd r) (s_label s))
                    (plot_rows (df_plot (out_df o))))
  /\ (NoDup (r_index <$> four_days) ->
      forall j k,
        p_index (df_plot (out_df o)) !! j = Some k ->
        p_REMARKS (df_plot (out_df o)) !! j = Some "NA" ->
        forall s, s ∈ scatters (out_chart o) -> k ∉ s_index s).
Proof.
  on_sample_run.
  apply (C6_chart_input_and_markers four_days). computed.
Defined.

(** Three days of which the second has a close price (99) and a date that
    cannot be parsed: the record is in the chart input and in the close
    line, with an undefined date. *)
Lemma C6_counterexample :
  exists o, analyze undated_days = Ok o
    /\ index (base (out_df o)) = [2; 1; 0]%Z
    /\ to_datetime <$> Date (base (out_df o)) !! 1 = Some None
    /\ p_index (df_plot (out_df o)) = [2; 1; 0]%Z
    /\ p_Date (df_plot (out_df o)) !! 1 = Some None
    /\ p_ClosePrice (df_plot (out_df o)) !! 1 = Some (Fin (9900 # 100))
    /\ (exists s, lines (out_chart o) !! 0 = Some s
          /\ s_index s !! 1 = Some 1%Z /\ s_x s !! 1 = Some None
          /\ s_y s !! 1 = Some (Fin (9900 # 100))).
Proof.
  on_sample_run.
  repeat split; try computed.
  eexists. repeat split; computed.
Qed.

(** C7: the report holds exactly min(50, n) records, the first of the
    frame in its order of decreasing index label (most recent first), with
    the columns Symbol, Date, %chngACT, %chngDEL, REMARKS, ClosePrice,
    %CHANGE and %DlyQttoTradedQty, and a colour gradient on the three
    percentage columns %chngACT, %chngDEL and %DlyQttoTradedQty. *)
Theorem C7_report_first_fifty (provider_df : list raw_row) (o : output) :
  analyze provider_df = Ok o ->
  length (d_index (data (out_table o))) = min 50 (length provider_df)
  /\ d_index (data (out_table o)) = take 50 (r_index <$> sort_index_desc provider_df)
  /\ descending (d_index (data (out_table o)))
  /\ columns (out_table o)
     = ["Symbol"; "Date"; "%chngACT"; "%chngDEL"; "REMARKS"; "ClosePrice"; "%CHANGE";
        "%DlyQttoTradedQty"]
  /\ d_Symbol (data (out_table o)) = take 50 (Symbol (base (out_df o)))
  /\ d_Date (data (out_table o)) = take 50 (Date (base (out_df o)))
  /\ d_pct_chngACT (data (out_table o)) = take 50 (pct_chngACT (out_df o))
  /\ d_pct_chngDEL (data (out_table o)) = take 50 (pct_chngDEL (out_df o))
  /\ d_REMARKS (data (out_table o)) = take 50 (REMARKS (out_df o))
  /\ d_ClosePrice (data (out_table o)) = take 50 (ClosePrice (base (out_df o)))
  /\ d_pct_CHANGE (data (out_table o)) = take 50 (pct_CHANGE (out_df o))
  /\ d_pct_DlyQttoTradedQty (data (out_table o))
     = take 50 (pct_DlyQttoTradedQty (base (out_df o)))
  /\ Forall (fun len => len = min 50 (length provider_df))
       [ length (d_Symbol (data (out_table o)));
         length (d_Date (data (out_table o)));
         length (d_pct_chngACT (data (out_table o)));
         length (d_pct_chngDEL (data (out_table o)));
         length (d_REMARKS (data (out_table o)));
         length (d_ClosePrice (data (out_table o)));
         length (d_pct_CHANGE (data (out_table o)));
         length (d_pct_DlyQttoTradedQty (data (out_table o))) ]
  /\ gradient_subset (out_table o) = ["%chngACT"; "%chngDEL"; "%DlyQttoTradedQty"].
Proof.
  intros Hrun.
  destruct (run_lengths _ _ Hrun) as (Hn & Hs & Hd & Hc & Hp & HcA & HcD & HC & HR).
  destruct (run_rows _ _ Hrun) as (_ & _ & Hidx).
  pose proof (analyze_Ok _ _ Hrun) as (_ & _ & ->).
  unfold df_display, head_display.
  cbn [data columns gradient_subset d_index d_Symbol d_Date d_pct_chngACT d_pct_chngDEL
       d_REMARKS d_ClosePrice d_pct_CHANGE d_pct_DlyQttoTradedQty].
  split; [rewrite length_take; lia|]. split; [by rewrite Hidx|].
  split.
  { eapply descending_sublist; [apply sublist_take|].
    rewrite Hidx. apply sort_index_desc_sorted. }
  repeat (split; [done|]). split; [|done].
  repeat constructor; rewrite length_take; lia.
Qed.

Lemma C7_witness :
  exists o, analyze fifty_one_days = Ok o
  /\ length (d_index (data (out_table o))) = min 50 (length fifty_one_days)
  /\ d_index (data (out_table o)) = take 50 (r_index <$> sort_index_desc fifty_one_days)
  /\ descending (d_index (data (out_table o)))
  /\ columns (out_table o)
     = ["Symbol"; "Date"; "%chngACT"; "%chngDEL"; "REMARKS"; "ClosePrice"; "%CHANGE";
        "%DlyQttoTradedQty"]
  /\ d_Symbol (data (out_table o)) = take 50 (Symbol (base (out_df o)))
  /\ d_Date (data (out_table o)) = take 50 (Date (base (out_df o)))
  /\ d_pct_chngACT (data (out_table o)) = take 50 (pct_chngACT (out_df o))
  /\ d_pct_chngDEL (data (out_table o)) = take 50 (pct_chngDEL (out_df o))
  /\ d_REMARKS (data (out_table o)) = take 50 (REMARKS (out_df o))
  /\ d_ClosePrice (data (out_table o)) = take 50 (ClosePrice (base (out_df o)))
  /\ d_pct_CHANGE (data (out_table o)) = take 50 (pct_CHANGE (out_df o))
  /\ d_pct_DlyQttoTradedQty (data (out_table o))
     = take 50 (pct_DlyQttoTradedQty (base (out_df o)))
  /\ Forall (fun len => len = min 50 (length fifty_one_days))
       [ length (d_Symbol (data (out_table o)));
         length (d_Date (data (out_table o)));
         length (d_pct_chngACT (data (out_table o)));
         length (d_pct_chngDEL (data (out_table o)));
         length (d_REMARKS (data (out_table o)));
         length (d_ClosePrice (data (out_table o)));
         length (d_pct_CHANGE (data (out_table o)));
         length (d_pct_DlyQttoTradedQty (data (out_table o))) ]
  /\ gradient_subset (out_table o) = ["%chngACT"; "%chngDEL"; "%DlyQttoTradedQty"].
Proof.
  on_sample_run.
  apply (C7_report_first_fifty fifty_one_days). computed.
Defined.

(** C8 (what the program does on the empty batch): cleaning completes on
    an empty table, but the run does not: the mean of an empty ACTION
    column is a built-in float, rounding it raises AttributeError, and the
    page shows the error box of the handler instead of an empty chart and a
    report of 0 rows. *)
Theorem C8_empty_batch_raises :
  select_and_clean (sort_index_desc [])
  = {| index := []; Symbol := []; Series := []; Date := []; ClosePrice := [];
       TotalTradedQuantity := []; No_ofTrades := []; pct_DlyQttoTradedQty := [] |}
  /\ mean_skipna (col_round2 (col_div [] [])) = py_float NaN
  /\ analyze [] = Raise (AttributeError "'float' object has no attribute 'round'")
  /\ app [] = ErrorBox (AttributeError "'float' object has no attribute 'round'").
Proof. repeat split. Qed.

(** ** Records without a close price *)

Lemma forward_change_unknown_close (provider_df : list raw_row) (o : output) (i : nat) :
  analyze provider_df = Ok o ->
  ClosePrice (base (out_df o)) !! i = Some NaN ->
  pct_CHANGE (out_df o) !! i = Some NaN.
Proof.
  intros Hrun Hc.
  destruct (run_price_columns _ _ Hrun) as (Hlen & _ & _ & HC).
  set (close := ClosePrice (base (out_df o))) in *.
  assert (Hi : i < length close) by (by eapply lookup_lt_Some).
  assert (Hl : length (pct_of (shift 1 close) close) = length close).
  { rewrite length_pct_of; [done|]. apply length_shift. }
  rewrite HC. unfold col_round2. rewrite list_lookup_fmap.
  destruct (decide (S i < length close)) as [HSi|HSi].
  - rewrite shift_m1_prev by lia.
    destruct (lookup_lt_is_Some_2 close (S i)) as [c' Hc']; [lia|].
    assert (Hp : shift 1 close !! S i = Some NaN) by (rewrite shift_1_next; [done|lia]).
    by rewrite (pct_of_lookup _ _ _ _ _ Hp Hc').
  - rewrite shift_m1_last by lia. done.
Qed.

Lemma unknown_close_not_plotted (e : enriched) (i : nat) (k : Z) :
  NoDup (index (base e)) ->
  index (base e) !! i = Some k ->
  ClosePrice (base e) !! i = Some NaN ->
  k ∉ p_index (df_plot e).
Proof.
  intros Hnd Hk Hc. simpl. intros (j & Hm & Hj)%mask_filter_lookup.
  assert (j = i) as -> by (eapply NoDup_lookup; eauto).
  by rewrite list_lookup_fmap, Hc in Hm.
Qed.

(** C10 (as the program has it): a record whose close price is unknown
    after cleaning is in no chart series (close line, EMA line, the three
    scatter series) and stays in the enriched sequence; it has a row in the
    report, with close and price change shown as unknown, exactly when it is
    among the first 50 records of the descending sequence. *)
Theorem C10_unknown_close_record
    (provider_df : list raw_row) (o : output) (i : nat) (k : Z) :
  analyze provider_df = Ok o ->
  NoDup (r_index <$> provider_df) ->
  index (base (out_df o)) !! i = Some k ->
  ClosePrice (base (out_df o)) !! i = Some NaN ->
  (forall s, s ∈ all_series (out_chart o) -> k ∉ s_index s)
  /\ k ∈ index (base (out_df o))
  /\ (i < 50 ->
      d_index (data (out_table o)) !! i = Some k
      /\ d_ClosePrice (data (out_table o)) !! i = Some NaN
      /\ d_pct_CHANGE (data (out_table o)) !! i = Some NaN)
  /\ (50 <= i -> k ∉ d_index (data (out_table o))).
Proof.
  intros Hrun Hnd Hk Hc.
  destruct (run_index_NoDup _ _ Hrun Hnd) as (Hndi & _).
  pose proof (unknown_close_not_plotted _ _ _ Hndi Hk Hc) as Hnot.
  pose proof (forward_change_unknown_close _ _ _ Hrun Hc) as HC.
  pose proof (analyze_Ok _ _ Hrun) as (_ & -> & ->).
  split; [|split; [|split]].
  - intros s. unfold all_series, build_chart. cbn [lines scatters].
    rewrite elem_of_app.
    intros [Hline | (lc & -> & _)%list_elem_of_fmap].
    + rewrite !elem_of_cons, elem_of_nil in Hline.
      destruct Hline as [-> | [-> | []]]; done.
    + cbn [scatter_of s_index]. intros Hin. apply Hnot.
      eapply elem_of_sublist; [exact Hin|]. apply mask_filter_sublist.
  - by eapply list_elem_of_lookup_2.
  - intros Hi. simpl. by rewrite !lookup_take_lt.
  - intros Hi. simpl. intros (j & Hj)%list_elem_of_lookup_1.
    apply lookup_take_Some in Hj as (Hj & Hlt).
    assert (j = i) by (eapply NoDup_lookup; eauto). lia.
Qed.

Lemma C10_witness :
  exists o, analyze gap_days = Ok o
  /\ (forall s, s ∈ all_series (out_chart o) -> 1%Z ∉ s_index s)
  /\ 1%Z ∈ index (base (out_df o))
  /\ (1 < 50 ->
      d_index (data (out_table o)) !! 1 = Some 1%Z
      /\ d_ClosePrice (data (out_table o)) !! 1 = Some NaN
      /\ d_pct_CHANGE (data (out_table o)) !! 1 = Some NaN)
  /\ (50 <= 1 -> 1%Z ∉ d_index (data (out_table o))).
Proof.
  on_sample_run.
  apply (C10_unknown_close_record gap_days);
    [computed | | computed | computed].
  apply (bool_decide_unpack _). computed.
Defined.

(** Fifty-one days of which the oldest has no close price: the record is
    the 51st of the descending sequence, and the report, which has 50
    rows, does not contain it. *)
Lemma C10_counterexample :
  exists o, analyze fifty_one_days = Ok o
    /\ index (base (out_df o)) !! 50 = Some 0%Z
    /\ ClosePrice (base (out_df o)) !! 50 = Some NaN
    /\ length (d_index (data (out_table o))) = 50
    /\ 0%Z ∉ d_index (data (out_table o)).
Proof.
  on_sample_run.
  repeat split; try computed.
  apply (bool_decide_unpack _). computed.
Qed.

(** * Further properties of the pipeline *)

(** ** Ordering of the batch (line 31) *)

(** X1: [sort_index(ascending=False)] keeps every row of the provider's
    table, each once, and leaves the index labels in decreasing order. *)
Theorem sort_index_desc_permutation_sorted (rows : list raw_row) :
  sort_index_desc rows ≡ₚ rows
  /\ length (sort_index_desc rows) = length rows
  /\ descending (r_index <$> sort_index_desc rows).
Proof.
  split; [apply sort_index_desc_perm|].
  split; [apply length_sort_index_desc | apply sort_index_desc_sorted].
Qed.

Lemma insert_desc_last (r : raw_row) (l : list raw_row) :
  Forall (fun h => (r_index r < r_index h)%Z) l -> insert_desc r l = l ++ [r].
Proof.
  induction l as [|h t IH]; intros HF; [done|].
  apply Forall_cons in HF as [Hh Ht]. simpl.
  destruct (r_index h <=? r_index r)%Z eqn:E; [apply Z.leb_le in E; lia|].
  by rewrite IH.
Qed.

(** X2: on a table whose index labels increase strictly down the rows (the
    provider lists the days oldest first), the sorted frame is the table in
    reverse order: newest first. *)
Theorem sort_index_desc_reverses_ascending (rows : list raw_row) :
  ascending (r_index <$> rows) -> sort_index_desc rows = reverse rows.
Proof.
  unfold ascending. induction rows as [|r rows IH]; intros Hs; [done|].
  rewrite fmap_cons in Hs. apply StronglySorted_cons in Hs as [Hr Hs].
  simpl. rewrite IH by done. rewrite reverse_cons. apply insert_desc_last.
  apply Forall_forall. intros h Hh.
  apply (proj1 (Forall_forall _ _) Hr (r_index h)).
  apply list_elem_of_fmap. exists h. split; [done|]. by apply elem_of_reverse.
Qed.

Lemma sort_index_desc_reverses_ascending_witness :
  ascending (r_index <$> four_days) /\ sort_index_desc four_days = reverse four_days.
Proof.
  assert (H : ascending (r_index <$> four_days)).
  { unfold ascending. simpl. repeat (constructor; [|repeat constructor; lia]).
    constructor. }
  split; [exact H|]. apply (sort_index_desc_reverses_ascending four_days H).
Defined.

(** ** When the run completes (lines 41-42 and the handler at line 85) *)

Lemma mean_round2_Ok_inv (col : list xnum) (a : xnum) :
  scalar_round2 (mean_skipna col) = Ok a -> exists x, x ∈ col /\ x <> NaN.
Proof.
  unfold mean_skipna.
  destruct (List.filter notna col) as [|v vals] eqn:E; [done|]. intros _.
  assert (Hin : In v (List.filter notna col)) by (rewrite E; by left).
  apply filter_In in Hin as [Hin Hv]. exists v.
  split; [by apply list_elem_of_In|]. by destruct v.
Qed.

Lemma mean_round2_Raise (col : list xnum) (e : exn) :
  scalar_round2 (mean_skipna col) = Raise e ->
  e = AttributeError "'float' object has no attribute 'round'"
  /\ Forall (fun x => x = NaN) col.
Proof.
  unfold mean_skipna.
  destruct (List.filter notna col) as [|v vals] eqn:E; [|done].
  intros [= <-]. split; [done|]. apply Forall_forall. intros x Hx.
  destruct (isna x) eqn:Hna; [by destruct x|].
  assert (Hin : In x (List.filter notna col)).
  { apply filter_In. split; [by apply list_elem_of_In|]. unfold notna. by rewrite Hna. }
  rewrite E in Hin. destruct Hin.
Qed.

Lemma enrich_Raise (df : frame) (e : exn) :
  enrich df = Raise e ->
  e = AttributeError "'float' object has no attribute 'round'"
  /\ (Forall (fun a => a = NaN)
        (col_round2 (col_div (TotalTradedQuantity df) (No_ofTrades df)))
      \/ Forall (fun d => d = NaN) (pct_DlyQttoTradedQty df)).
Proof.
  unfold enrich.
  destruct (scalar_round2 (mean_skipna (col_round2 _))) as [a|e1] eqn:Ea; simpl.
  - destruct (scalar_round2 (mean_skipna (pct_DlyQttoTradedQty df))) as [d|e2] eqn:Ed;
      simpl; [done|].
    intros [= <-]. apply mean_round2_Raise in Ed as [-> Hall]. auto.
  - intros [= <-]. apply mean_round2_Raise in Ea as [-> Hall]. auto.
Qed.

(** X3: the derived-column stage (lines 40-57) completes on the cleaned
    frame exactly when at least one action and at least one delivery
    percentage of the batch are known.  When every action, or every
    delivery percentage, is unknown, it stops at line 41 or 42 with the
    AttributeError of rounding a batch average. *)
Theorem derived_columns_complete_iff_averages_exist (provider_df : list raw_row) :
  let df := select_and_clean (sort_index_desc provider_df) in
  let action := col_round2 (col_div (TotalTradedQuantity df) (No_ofTrades df)) in
  ((exists e, enrich df = Ok e)
   <-> (exists a, a ∈ action /\ a <> NaN)
       /\ (exists d, d ∈ pct_DlyQttoTradedQty df /\ d <> NaN))
  /\ (Forall (fun a => a = NaN) action
      \/ Forall (fun d => d = NaN) (pct_DlyQttoTradedQty df) ->
      enrich df = Raise (AttributeError "'float' object has no attribute 'round'")).
Proof.
  intros df action.
  assert (Hiff : (exists e, enrich df = Ok e)
                 <-> (exists a, a ∈ action /\ a <> NaN)
                     /\ (exists d, d ∈ pct_DlyQttoTradedQty df /\ d <> NaN)).
  { split.
    - intros (e & Hen). apply enrich_Ok in Hen as (a & d & Ha & Hd & _).
      split; [by eapply mean_round2_Ok_inv | by eapply mean_round2_Ok_inv].
    - intros ((a & Ha & Hna) & (d & Hd & Hnd)). unfold enrich. fold action.
      destruct (mean_round2_Ok _ _ Ha Hna) as (a' & ->).
      destruct (mean_round2_Ok _ _ Hd Hnd) as (d' & ->).
      simpl. by eexists. }
  split; [exact Hiff|]. intros Hall.
  destruct (enrich df) as [e|ex] eqn:Een.
  - exfalso. destruct (proj1 Hiff (ex_intro _ e eq_refl))
      as ((a & Ha & Hna) & (d & Hd & Hnd)).
    destruct Hall as [Hall | Hall]; rewrite Forall_forall in Hall; auto.
  - by apply enrich_Raise in Een as [-> _].
Qed.

Lemma derived_columns_complete_iff_averages_exist_witness :
  exists e, enrich (select_and_clean (sort_index_desc four_days)) = Ok e.
Proof.
  apply (proj2 (proj1 (derived_columns_complete_iff_averages_exist four_days))). split.
  - eexists. split; [eapply (list_elem_of_lookup_2 _ 0); computed | discriminate].
  - eexists. split; [eapply (list_elem_of_lookup_2 _ 0); computed | discriminate].
Defined.

(** ** A batch of one record (lines 40-57) *)

Lemma round_half_even_integer (q : Q) (k : Z) :
  (q == inject_Z k)%Q -> round_half_even q = k.
Proof.
  unfold Qeq, inject_Z, round_half_even. simpl. intros H.
  assert (Hn : Qnum q = (k * QDen q)%Z) by lia.
  rewrite Hn, Z.mod_mul, Z.div_mul by done. done.
Qed.

Lemma xlt_irrefl (x : xnum) : xlt x x = false.
Proof. destruct x; simpl; try done. by apply Qltb_irrefl. Qed.

(** The rounded mean of a single rounded value is that value. *)
Lemma mean_round2_single (x : xnum) :
  x <> NaN -> scalar_round2 (mean_skipna [round2 x]) = Ok (round2 x).
Proof.
  intros Hx. destruct x as [q| | |]; try done. simpl.
  do 2 f_equal. f_equal. apply round_half_even_integer.
  unfold Qeq, inject_Z. simpl. lia.
Qed.

Lemma single_remark (d a : xnum) : select_remarks 1 [d] [d] [a] [a] = ["NA"].
Proof.
  unfold select_remarks, np_select. simpl. unfold xgt.
  by rewrite !xlt_irrefl.
Qed.

(** X4: in a batch of one record on which the run completes, the two
    batch averages are the record's own action and delivery percentage, so
    its remark is NA, and its prior close, inverse change and forward
    change are all unknown. *)
Theorem single_record_batch (r : raw_row) (o : output) :
  analyze [r] = Ok o ->
  exists a d,
    ACTION (out_df o) = [a]
    /\ pct_DlyQttoTradedQty (base (out_df o)) = [d]
    /\ a <> NaN /\ d <> NaN
    /\ avgACTION (out_df o) = [a]
    /\ avg_pct_DEL (out_df o) = [d]
    /\ REMARKS (out_df o) = ["NA"]
    /\ SHIFT (out_df o) = [NaN]
    /\ pct_iCHANGE (out_df o) = [NaN]
    /\ pct_CHANGE (out_df o) = [NaN].
Proof.
  intros Hrun. apply analyze_Ok in Hrun as (Hen & _ & _).
  apply enrich_Ok in Hen
    as (a & d & Ha & Hd & Hb & HA & HaA & HaD & _ & _ & HS & HI & HC & HR).
  rewrite Hb, HA, HaA, HaD, HS, HI, HC, HR. clear Hb HA HaA HaD HS HI HC HR.
  cbn [sort_index_desc foldr insert_desc select_and_clean fmap list_fmap
       index TotalTradedQuantity No_ofTrades pct_DlyQttoTradedQty ClosePrice
       length replicate col_round2 col_div zip_with] in *.
  set (q := clean_numeric (r_TotalTradedQuantity r)) in *.
  set (t := clean_numeric (r_No_ofTrades r)) in *.
  set (c := clean_numeric (r_ClosePrice r)) in *.
  assert (Hq : xdiv q t <> NaN).
  { apply mean_round2_Ok_inv in Ha as (x & Hx & Hn).
    apply list_elem_of_singleton in Hx as ->. by destruct (xdiv q t). }
  assert (Hp : to_numeric (strip_commas (replace_dash (r_pct_DlyQttoTradedQty r))) <> NaN).
  { apply mean_round2_Ok_inv in Hd as (x & Hx & Hn).
    apply list_elem_of_singleton in Hx as ->. unfold clean_numeric in Hn.
    by destruct (to_numeric _). }
  rewrite (mean_round2_single _ Hq) in Ha. injection Ha as <-.
  unfold clean_numeric in Hd at 1. rewrite (mean_round2_single _ Hp) in Hd.
  injection Hd as <-. fold (clean_numeric (r_pct_DlyQttoTradedQty r)).
  exists (round2 (xdiv q t)), (clean_numeric (r_pct_DlyQttoTradedQty r)).
  split; [done|]. split; [done|].
  split; [by destruct (xdiv q t)|].
  split; [unfold clean_numeric; by destruct (to_numeric _)|].
  split; [done|]. split; [done|]. split; [apply single_remark|].
  by repeat split.
Qed.

Lemma single_record_batch_witness :
  exists o, analyze no_trade_day = Ok o
  /\ exists a d,
    ACTION (out_df o) = [a]
    /\ pct_DlyQttoTradedQty (base (out_df o)) = [d]
    /\ a <> NaN /\ d <> NaN
    /\ avgACTION (out_df o) = [a]
    /\ avg_pct_DEL (out_df o) = [d]
    /\ REMARKS (out_df o) = ["NA"]
    /\ SHIFT (out_df o) = [NaN]
    /\ pct_iCHANGE (out_df o) = [NaN]
    /\ pct_CHANGE (out_df o) = [NaN].
Proof.
  on_sample_run.
  apply (single_record_batch (mk_row 0 "01-Jan-2025" "105" "1,000" "0" "60.00")).
  computed.
Defined.

(** ** What the plotting calls receive (lines 60-71) *)

Lemma length_ewm_loop (alpha : Q) (vals : list xnum) (weighted : xnum) (old_wt : Q) :
  length (ewm_loop alpha weighted old_wt vals) = length vals.
Proof.
  revert weighted old_wt. induction vals as [|cur rest IH]; intros weighted old_wt; [done|].
  cbn [ewm_loop].
  destruct (if notna weighted then _ else _) as [w' o']. simpl. by rewrite IH.
Qed.

Lemma length_ewm_mean (span : Q) (vals : list xnum) :
  length (ewm_mean span vals) = length vals.
Proof.
  unfold ewm_mean. rewrite <- (length_fmap inf_to_nan vals).
  destruct (inf_to_nan <$> vals); simpl; [done|]. by rewrite length_ewm_loop.
Qed.

Lemma length_mask_filter_notna (c : list xnum) :
  length (mask_filter (notna <$> c) c) = length (List.filter notna c).
Proof.
  induction c as [|x c IH]; [done|]. rewrite fmap_cons. cbn [mask_filter List.filter].
  destruct (notna x); simpl; by rewrite IH.
Qed.

(** X5: every series handed to the plotting calls has exactly one x value
    and one y value per point, so no call is given sequences of different
    lengths; the two lines have one point for each record whose close price
    is known. *)
Theorem chart_series_aligned (provider_df : list raw_row) (o : output) :
  analyze provider_df = Ok o ->
  (forall s, s ∈ all_series (out_chart o) ->
     length (s_x s) = length (s_index s) /\ length (s_y s) = length (s_index s))
  /\ (forall s, s ∈ lines (out_chart o) ->
        length (s_index s) = length (List.filter notna (ClosePrice (base (out_df o))))).
Proof.
  intros Hrun.
  destruct (run_lengths _ _ Hrun) as (Hn & _ & Hd & Hc & _ & _ & _ & _ & Hr).
  destruct (plot_frame_lengths (out_df o)) as (Hpd & Hpc & Hpr); [lia..|].
  assert (Hpe : length (p_EMA30 (df_plot (out_df o))) = length (p_index (df_plot (out_df o)))).
  { change (p_EMA30 (df_plot (out_df o)))
      with (ewm_mean 30 (p_ClosePrice (df_plot (out_df o)))).
    by rewrite length_ewm_mean. }
  assert (Hpi : length (p_index (df_plot (out_df o)))
                = length (List.filter notna (ClosePrice (base (out_df o))))).
  { rewrite <- Hpc. apply length_mask_filter_notna. }
  pose proof (analyze_Ok _ _ Hrun) as (_ & -> & _).
  unfold all_series, build_chart. cbn [lines scatters]. split.
  - intros s. rewrite elem_of_app.
    intros [Hline | (lc & -> & _)%list_elem_of_fmap].
    + rewrite !elem_of_cons, elem_of_nil in Hline.
      destruct Hline as [-> | [-> | []]]; done.
    + cbn [scatter_of s_index s_x s_y]. split; by apply length_mask_filter.
  - intros s Hline. rewrite !elem_of_cons, elem_of_nil in Hline.
    destruct Hline as [-> | [-> | []]]; done.
Qed.

Lemma chart_series_aligned_witness :
  exists o, analyze gap_days = Ok o
  /\ (forall s, s ∈ all_series (out_chart o) ->
        length (s_x s) = length (s_index s) /\ length (s_y s) = length (s_index s))
  /\ (forall s, s ∈ lines (out_chart o) ->
        length (s_index s) = length (List.filter notna (ClosePrice (base (out_df o))))).
Proof.
  on_sample_run. apply (chart_series_aligned gap_days). computed.
Defined.

(** Every remark the classifier writes is one of the four. *)
Lemma select_at_in {A : Type} (conds : list bool) (choices : list A) (d : A) :
  select_at conds choices d ∈ d :: choices.
Proof.
  revert choices. induction conds as [|c conds IH]; intros [|x choices]; simpl;
    try apply list_elem_of_here.
  destruct c.
  - apply list_elem_of_further, list_elem_of_here.
  - specialize (IH choices). apply elem_of_cons in IH as [-> | IH].
    + apply list_elem_of_here.
    + by do 2 apply list_elem_of_further.
Qed.

Lemma select_remarks_in (n : nat) (dly avgdel action avgaction : list xnum) :
  Forall (fun r => r ∈ remarks) (select_remarks n dly avgdel action avgaction).
Proof.
  unfold select_remarks, np_select. apply Forall_fmap, Forall_forall. intros i _.
  simpl. pose proof (select_at_in
    ((fun c => nth i c false) <$> conditions dly avgdel action avgaction) remarks "NA") as H.
  unfold remarks in *. rewrite !elem_of_cons in *. tauto.
Qed.

Lemma mask_filter_Forall {A : Type} (P : A -> Prop) (mask : list bool) (c : list A) :
  Forall P c -> Forall P (mask_filter mask c).
Proof.
  intros HF. apply Forall_forall. intros x Hx.
  apply (proj1 (Forall_forall _ _) HF). eapply elem_of_sublist; [exact Hx|].
  apply mask_filter_sublist.
Qed.

Lemma marker_counts {A : Type} (l : list string) (idx : list A) :
  Forall (fun r => r ∈ remarks) l ->
  length idx = length l ->
  length (mask_filter ((fun r => String.eqb r "JACKPOT") <$> l) idx)
  + length (mask_filter ((fun r => String.eqb r "ACC(G-LZ)") <$> l) idx)
  + length (mask_filter ((fun r => String.eqb r "BR(G-HZ)") <$> l) idx)
  + count_NA l
  = length idx.
Proof.
  unfold count_NA. revert idx.
  induction l as [|r l IH]; intros [|x idx] HF Hlen; simpl in Hlen; try done.
  apply Forall_cons in HF as [Hr HF]. specialize (IH idx HF ltac:(lia)).
  rewrite !fmap_cons. cbn [mask_filter List.filter].
  unfold remarks in Hr. rewrite !elem_of_cons, elem_of_nil in Hr.
  destruct Hr as [-> | [-> | [-> | [-> | []]]]]; simpl; lia.
Qed.

(** X6: the three scatter series and the NA records partition the plotted
    records: the numbers of points of the JACKPOT, ACC(G-LZ) and BR(G-HZ)
    series and the number of plotted records with remark NA add up to the
    number of plotted records. *)
Theorem markers_partition_plotted_records (provider_df : list raw_row) (o : output) :
  analyze provider_df = Ok o ->
  sum_list ((fun s => length (s_index s)) <$> scatters (out_chart o))
  + count_NA (p_REMARKS (df_plot (out_df o)))
  = length (p_index (df_plot (out_df o))).
Proof.
  intros Hrun.
  destruct (run_lengths _ _ Hrun) as (Hn & _ & Hd & Hc & _ & _ & _ & _ & Hr).
  destruct (plot_frame_lengths (out_df o)) as (_ & _ & Hpr); [lia..|].
  assert (HF : Forall (fun r => r ∈ remarks) (p_REMARKS (df_plot (out_df o)))).
  { apply mask_filter_Forall.
    pose proof (analyze_Ok _ _ Hrun) as (Hen & _ & _).
    apply enrich_Ok in Hen as (a & d & _ & _ & _ & _ & _ & _ & _ & _ & _ & _ & _ & ->).
    apply select_remarks_in. }
  pose proof (marker_counts _ (p_index (df_plot (out_df o))) HF (eq_sym Hpr)) as Hcount.
  pose proof (analyze_Ok _ _ Hrun) as (_ & -> & _).
  unfold build_chart, colors. cbn [scatters fmap list_fmap scatter_of s_index fst sum_list
                                    sum_list_with].
  unfold id. lia.
Qed.

Lemma markers_partition_plotted_records_witness :
  exists o, analyze four_days = Ok o
  /\ sum_list ((fun s => length (s_index s)) <$> scatters (out_chart o))
     + count_NA (p_REMARKS (df_plot (out_df o)))
     = length (p_index (df_plot (out_df o))).
Proof.
  on_sample_run. apply (markers_partition_plotted_records four_days). computed.
Defined.

(** ** The moving average stays within the prices (line 62) *)

Lemma ewm_alpha_30_unit : (0 <= ewm_alpha 30)%Q /\ (ewm_alpha 30 <= 1)%Q.
Proof. split; vm_compute; discriminate. Qed.

Lemma ema_from_between (alpha lo hi : Q) (qs : list Q) (prev : Q) :
  (0 <= alpha)%Q -> (alpha <= 1)%Q ->
  between lo hi prev -> Forall (between lo hi) qs ->
  Forall (between lo hi) (ema_from alpha prev qs).
Proof.
  intros H0 H1. revert prev. induction qs as [|c qs IH]; intros prev Hp HF; [constructor|].
  apply Forall_cons in HF as [[Hc1 Hc2] HF]. destruct Hp as [Hp1 Hp2].
  assert (Hy : between lo hi (c * alpha + prev * (1 - alpha))).
  { split; nra. }
  simpl. constructor; [done|]. by apply IH.
Qed.

Lemma length_ema (alpha : Q) (qs : list Q) : length (ema alpha qs) = length qs.
Proof.
  destruct qs as [|c qs]; [done|]. simpl. f_equal.
  generalize c. induction qs as [|c' qs IH]; intros prev; [done|].
  simpl. by rewrite IH.
Qed.

Lemma between_Qeq (lo hi x y : Q) : (x == y)%Q -> between lo hi y -> between lo hi x.
Proof. intros H [H1 H2]. split; by rewrite H. Qed.

(** X7: when the plotted close prices are finite, every value of the 30
    EMA line is finite and lies between the smallest and the largest
    plotted close price (between any two bounds that hold for all of
    them). *)
Theorem ema_within_close_range (e : enriched) (qs : list Q) (lo hi : Q) :
  p_ClosePrice (df_plot e) = Fin <$> qs ->
  Forall (between lo hi) qs ->
  exists ys, p_EMA30 (df_plot e) = Fin <$> ys
    /\ length ys = length qs
    /\ Forall (between lo hi) ys.
Proof.
  intros Hqs HF.
  destruct (ewm_mean_finite 30 qs) as (ys & Hys & _ & H2).
  exists ys. split.
  { change (p_EMA30 (df_plot e)) with (ewm_mean 30 (p_ClosePrice (df_plot e))).
    by rewrite Hqs. }
  split; [rewrite (Forall2_length _ _ _ H2); apply length_ema|].
  assert (He : Forall (between lo hi) (ema (ewm_alpha 30) qs)).
  { destruct qs as [|c qs]; [constructor|].
    apply Forall_cons in HF as [Hc HF]. simpl. constructor; [done|].
    destruct ewm_alpha_30_unit. by apply ema_from_between. }
  clear Hys HF Hqs. induction H2 as [|y y' ys ys' Hy H2 IH]; [constructor|].
  apply Forall_cons in He as [Hy' He]. constructor; [|by apply IH].
  by eapply between_Qeq.
Qed.

Lemma ema_within_close_range_witness :
  exists o, analyze four_days = Ok o
  /\ exists ys, p_EMA30 (df_plot (out_df o)) = Fin <$> ys
    /\ length ys = length [10000 # 100; 10200 # 100; 9900 # 100; 10500 # 100]%Q
    /\ Forall (between 99 105) ys.
Proof.
  on_sample_run.
  apply (ema_within_close_range _ [10000 # 100; 10200 # 100; 9900 # 100; 10500 # 100]%Q).
  - computed.
  - repeat (constructor; [split; vm_compute; discriminate|]). constructor.
Defined.

(** ** Remarks and the displayed deviations (lines 43-44 and 50-57) *)

Lemma Qsign_spec (q : Q) :
  match Qsign q with
  | Eq => (q == 0)%Q
  | Lt => (q < 0)%Q
  | Gt => (0 < q)%Q
  end.
Proof.
  unfold Qsign, Qeq, Qlt. simpl.
  destruct (Z.compare_spec (Qnum q) 0); lia.
Qed.

Lemma round_half_even_nonneg (q : Q) : (0 <= q)%Q -> (0 <= round_half_even q)%Z.
Proof.
  unfold Qle, round_half_even. simpl. intros H.
  assert (0 <= Qnum q / QDen q)%Z by (apply Z.div_pos; lia).
  destruct (_ ?= _)%Z; [destruct (Z.even _)|..]; lia.
Qed.

Lemma round_half_even_nonpos (q : Q) : (q <= 0)%Q -> (round_half_even q <= 0)%Z.
Proof.
  unfold Qle, round_half_even. simpl. intros H.
  pose proof (Z.div_mod (Qnum q) (QDen q) ltac:(done)) as Hdm.
  pose proof (Z.mod_pos_bound (Qnum q) (QDen q) ltac:(done)) as Hr.
  assert (Hf : (Qnum q / QDen q <= 0)%Z) by nia.
  destruct (Z.compare_spec (2 * (Qnum q mod QDen q)) (QDen q)) as [He|Hl|Hg].
  - destruct (Z.even _); [done|]. nia.
  - done.
  - nia.
Qed.

Lemma hundredths_nonneg (k : Z) : (0 <= k)%Z -> known_nonneg (Fin (k # 100)).
Proof.
  intros Hk. split; [done|]. unfold xlt, Qltb. simpl. apply Z.ltb_ge. lia.
Qed.

Lemma hundredths_nonpos (k : Z) : (k <= 0)%Z -> known_nonpos (Fin (k # 100)).
Proof.
  intros Hk. split; [done|]. unfold xgt, xlt, Qltb. simpl. apply Z.ltb_ge. lia.
Qed.

(** The deviation in percent of a value above a positive base is not
    negative, and that of a value below it is not positive. *)
Lemma pct_value_above (x : xnum) (q : Q) :
  (0 < q)%Q -> xgt x (Fin q) = true ->
  known_nonneg (round2 (xmul (xdiv (xsub x (Fin q)) (Fin q)) (Fin 100))).
Proof.
  intros Hq Hx. unfold xgt in Hx. pose proof (Qsign_spec q) as Hs.
  destruct x as [a| | |]; simpl in Hx; try done.
  - apply Qltb_lt in Hx. pose proof (Qsign_spec (a + - q)) as Hd. simpl.
    destruct (Qsign q) eqn:Eq.
    + lra.
    + lra.
    + simpl. apply hundredths_nonneg, round_half_even_nonneg.
      apply Qmult_le_0_compat; [|done]. apply Qmult_le_0_compat; [|done].
      apply Qle_shift_div_l; [done|]. lra.
  - simpl. destruct (Qsign q) eqn:Eq; simpl; try done. lra.
Qed.

Lemma pct_value_below (x : xnum) (q : Q) :
  (0 < q)%Q -> xlt x (Fin q) = true ->
  known_nonpos (round2 (xmul (xdiv (xsub x (Fin q)) (Fin q)) (Fin 100))).
Proof.
  intros Hq Hx. pose proof (Qsign_spec q) as Hs.
  destruct x as [a| | |]; simpl in Hx; try done.
  - apply Qltb_lt in Hx. pose proof (Qsign_spec (a + - q)) as Hd. simpl.
    destruct (Qsign q) eqn:Eq.
    + lra.
    + lra.
    + simpl. apply hundredths_nonpos, round_half_even_nonpos.
      assert (H1 : ((a + - q) / q <= 0)%Q).
      { apply Qle_shift_div_r; [done|]. lra. }
      nra.
  - simpl. destruct (Qsign q) eqn:Eq; simpl; try done. lra.
Qed.

Lemma remark_rule_guards (dly avgdel action avgaction : xnum) :
  let r := remark_rule dly avgdel action avgaction in
  (r = "ACC(G-LZ)" -> xgt dly avgdel = true /\ xlt action avgaction = true)
  /\ (r = "BR(G-HZ)" -> xlt dly avgdel = true /\ xgt action avgaction = true)
  /\ (r = "JACKPOT" -> xgt dly avgdel = true /\ xgt action avgaction = true).
Proof.
  unfold remark_rule.
  destruct (xgt dly avgdel) eqn:E1, (xlt action avgaction) eqn:E2,
           (xlt dly avgdel) eqn:E3, (xgt action avgaction) eqn:E4; simpl;
    repeat split; congruence.
Qed.

(** X8: the remark of a record agrees with the two deviations shown beside
    it.  When the two batch averages are finite and positive, a
    JACKPOT record has %chngACT and %chngDEL known and not negative, an
    ACC(G-LZ) record has %chngDEL not negative and %chngACT not positive,
    and a BR(G-HZ) record has %chngDEL not positive and %chngACT not
    negative. *)
Theorem remark_agrees_with_deviations
    (provider_df : list raw_row) (o : output) (i : nat) (r : string) (qa qd : Q) :
  analyze provider_df = Ok o ->
  REMARKS (out_df o) !! i = Some r ->
  avgACTION (out_df o) !! i = Some (Fin qa) ->
  avg_pct_DEL (out_df o) !! i = Some (Fin qd) ->
  (0 < qa)%Q -> (0 < qd)%Q ->
  exists ca cd,
    pct_chngACT (out_df o) !! i = Some ca
    /\ pct_chngDEL (out_df o) !! i = Some cd
    /\ (r = "JACKPOT" -> known_nonneg ca /\ known_nonneg cd)
    /\ (r = "ACC(G-LZ)" -> known_nonpos ca /\ known_nonneg cd)
    /\ (r = "BR(G-HZ)" -> known_nonneg ca /\ known_nonpos cd).
Proof.
  intros Hrun Hr Ha Hd Hqa Hqd.
  destruct (run_rows _ _ Hrun) as (Hal & Hn & _).
  assert (Hi : i < length (index (base (out_df o)))).
  { destruct (run_lengths _ _ Hrun) as (? & _ & _ & _ & _ & _ & _ & _ & HlR).
    apply lookup_lt_Some in Hr. lia. }
  destruct (aligned_lookups _ i Hal Hi) as (c & q & t & dly & _ & Hq & Ht & Hdly).
  apply analyze_Ok in Hrun as (Hen & _ & _).
  apply enrich_Ok in Hen
    as (a & d & _ & _ & Hb & HA & HaA & HaD & HcA & HcD & _ & _ & _ & HR).
  rewrite Hb in *.
  set (df := select_and_clean (sort_index_desc provider_df)) in *.
  pose proof (action_lookup _ _ _ _ _ Hq Ht) as Hact.
  rewrite HaA in Ha. rewrite HaD in Hd.
  assert (Hra : replicate (length (index df)) a !! i = Some a)
    by (by apply lookup_replicate_2).
  assert (Hrd : replicate (length (index df)) d !! i = Some d)
    by (by apply lookup_replicate_2).
  assert (a = Fin qa) as -> by congruence.
  assert (d = Fin qd) as -> by congruence.
  rewrite HR, (select_remarks_lookup _ _ _ _ _ _ _ _ _ _ Hi Hdly Hrd Hact Hra) in Hr.
  injection Hr as <-.
  destruct (remark_rule_guards dly (Fin qd) (round2 (xdiv q t)) (Fin qa))
    as (Hacc & Hbr & Hjp).
  exists (round2 (xmul (xdiv (xsub (round2 (xdiv q t)) (Fin qa)) (Fin qa)) (Fin 100))),
         (round2 (xmul (xdiv (xsub dly (Fin qd)) (Fin qd)) (Fin 100))).
  split; [rewrite HcA; by apply pct_of_lookup|].
  split; [rewrite HcD; by apply pct_of_lookup|].
  split; [|split].
  - intros H. destruct (Hjp H) as [H1 H2].
    split; by apply pct_value_above.
  - intros H. destruct (Hacc H) as [H1 H2].
    split; [by apply pct_value_below | by apply pct_value_above].
  - intros H. destruct (Hbr H) as [H1 H2].
    split; [by apply pct_value_above | by apply pct_value_below].
Qed.

Lemma remark_agrees_with_deviations_witness :
  exists o, analyze four_days = Ok o
  /\ exists ca cd,
    pct_chngACT (out_df o) !! 1 = Some ca
    /\ pct_chngDEL (out_df o) !! 1 = Some cd
    /\ ("JACKPOT" = "JACKPOT" -> known_nonneg ca /\ known_nonneg cd)
    /\ ("JACKPOT" = "ACC(G-LZ)" -> known_nonpos ca /\ known_nonneg cd)
    /\ ("JACKPOT" = "BR(G-HZ)" -> known_nonneg ca /\ known_nonpos cd).
Proof.
  on_sample_run.
  apply (remark_agrees_with_deviations four_days _ 1 "JACKPOT" (11000 # 100) (5012 # 100));
    try computed; vm_compute; discriminate.
Defined.

(** ** Placeholders (lines 35-37) and what follows from them *)

Lemma clean_numeric_dash : clean_numeric (CStr "-") = NaN.
Proof. reflexivity. Qed.

(** X9: a record whose number of trades, traded quantity or delivery
    percentage is the placeholder '-' gets the remark NA; with the
    placeholder in the trades or the quantity its action and %chngACT are
    unknown, with the placeholder in the delivery percentage its %chngDEL is
    unknown. *)
Theorem placeholder_record_is_NA
    (provider_df : list raw_row) (o : output) (i : nat) (r : raw_row) :
  analyze provider_df = Ok o ->
  sort_index_desc provider_df !! i = Some r ->
  (r_No_ofTrades r = CStr "-" \/ r_TotalTradedQuantity r = CStr "-" ->
     ACTION (out_df o) !! i = Some NaN
     /\ pct_chngACT (out_df o) !! i = Some NaN
     /\ REMARKS (out_df o) !! i = Some "NA")
  /\ (r_pct_DlyQttoTradedQty r = CStr "-" ->
        pct_chngDEL (out_df o) !! i = Some NaN
        /\ REMARKS (out_df o) !! i = Some "NA").
Proof.
  intros Hrun Hrow.
  apply analyze_Ok in Hrun as (Hen & _ & _).
  apply enrich_Ok in Hen
    as (a & d & _ & _ & Hb & HA & HaA & HaD & HcA & HcD & _ & _ & _ & HR).
  set (df := select_and_clean (sort_index_desc provider_df)) in *.
  assert (Hi : i < length (index df)).
  { unfold df. simpl. rewrite length_fmap. by eapply lookup_lt_Some. }
  assert (Hq : TotalTradedQuantity df !! i = Some (clean_numeric (r_TotalTradedQuantity r))).
  { unfold df. simpl. by rewrite list_lookup_fmap, Hrow. }
  assert (Ht : No_ofTrades df !! i = Some (clean_numeric (r_No_ofTrades r))).
  { unfold df. simpl. by rewrite list_lookup_fmap, Hrow. }
  assert (Hd : pct_DlyQttoTradedQty df !! i
               = Some (clean_numeric (r_pct_DlyQttoTradedQty r))).
  { unfold df. simpl. by rewrite list_lookup_fmap, Hrow. }
  pose proof (action_lookup _ _ _ _ _ Hq Ht) as Hact.
  assert (Hra : replicate (length (index df)) a !! i = Some a)
    by (by apply lookup_replicate_2).
  assert (Hrd : replicate (length (index df)) d !! i = Some d)
    by (by apply lookup_replicate_2).
  pose proof (select_remarks_lookup _ _ _ _ _ _ _ _ _ _ Hi Hd Hrd Hact Hra) as Hrem.
  rewrite HA, HcA, HcD, HR, Hrem. split.
  - intros Hph.
    assert (Hnan : round2 (xdiv (clean_numeric (r_TotalTradedQuantity r))
                                (clean_numeric (r_No_ofTrades r))) = NaN).
    { destruct Hph as [-> | ->]; rewrite clean_numeric_dash; [|done].
      by rewrite xdiv_NaN_r. }
    rewrite Hnan in *. split; [done|].
    split; [by rewrite (pct_of_lookup _ _ _ _ _ Hact Hra)|].
    f_equal. apply remark_rule_unknown. auto.
  - intros Hph. rewrite Hph, clean_numeric_dash in *.
    split; [by rewrite (pct_of_lookup _ _ _ _ _ Hd Hrd)|].
    f_equal. apply remark_rule_unknown. auto.
Qed.

Lemma placeholder_record_is_NA_witness :
  exists o, analyze untraded_days = Ok o
  /\ (CStr "-" = CStr "-" \/ CStr "1,000,000" = CStr "-" ->
        ACTION (out_df o) !! 1 = Some NaN
        /\ pct_chngACT (out_df o) !! 1 = Some NaN
        /\ REMARKS (out_df o) !! 1 = Some "NA")
  /\ (CStr "60.00" = CStr "-" ->
        pct_chngDEL (out_df o) !! 1 = Some NaN
        /\ REMARKS (out_df o) !! 1 = Some "NA").
Proof.
  on_sample_run.
  apply (placeholder_record_is_NA untraded_days _ 1
           (mk_row 0 "01-Jan-2025" "105" "1,000,000" "-" "60.00")); computed.
Defined.

Lemma replace_dash_text (s : string) :
  replace_dash (CStr s) = if String.eqb s "-" then CNum NaN else CStr s.
Proof.
  destruct s as [|a [|b s]]; try done.
  - by destruct a as [[] [] [] [] [] [] [] []].
  - by destruct a as [[] [] [] [] [] [] [] []].
Qed.

Lemma without_commas_idem (s : string) :
  without_commas (without_commas s) = without_commas s.
Proof.
  unfold without_commas, chars. rewrite list_ascii_of_string_of_list_ascii.
  f_equal. induction (list_ascii_of_string s) as [|a l IH]; [done|].
  simpl. destruct (negb (is_comma a)) eqn:E; simpl; rewrite ?E; by rewrite IH.
Qed.

(** X10: thousands separators never change a cleaned number: a text cell
    and the same text with every comma removed clean to the same value
    ('1,000,000' and '1000000', and also ',-' and '-', which are both
    unknown). *)
Theorem cleaning_ignores_commas (s : string) :
  clean_numeric (CStr s) = clean_numeric (CStr (without_commas s)).
Proof.
  unfold clean_numeric. rewrite !replace_dash_text.
  destruct (String.eqb_spec s "-") as [-> | Hs]; [done|].
  destruct (String.eqb_spec (without_commas s) "-") as [E | Hs'].
  - cbn [strip_commas]. fold (without_commas s). by rewrite E.
  - cbn [strip_commas]. fold (without_commas s).
    fold (without_commas (without_commas s)). by rewrite without_commas_idem.
Qed.

(** ** Gaps in the close prices (lines 45-47) *)

(** X11: a gap is not bridged: when the close price of a record is
    unknown, the forward change of the record just before it in the
    descending sequence (the next day) is unknown too, whatever the other
    close prices are; the change is never taken against an earlier known
    close. *)
Theorem unknown_close_blanks_next_day
    (provider_df : list raw_row) (o : output) (i : nat) :
  analyze provider_df = Ok o ->
  ClosePrice (base (out_df o)) !! S i = Some NaN ->
  pct_iCHANGE (out_df o) !! S i = Some NaN
  /\ pct_CHANGE (out_df o) !! i = Some NaN.
Proof.
  intros Hrun Hc.
  destruct (run_price_columns _ _ Hrun) as (Hlen & _ & HI & HC).
  set (close := ClosePrice (base (out_df o))) in *.
  assert (Hi : S i < length close) by (by eapply lookup_lt_Some).
  destruct (lookup_lt_is_Some_2 close i) as [c Hci]; [lia|].
  assert (Hp : shift 1 close !! S i = Some c) by (rewrite shift_1_next; [done|lia]).
  assert (Hl : length (pct_of (shift 1 close) close) = length close).
  { rewrite length_pct_of; [done|]. apply length_shift. }
  assert (HiS : pct_of (shift 1 close) close !! S i = Some NaN).
  { rewrite (pct_of_lookup _ _ _ _ _ Hp Hc). by rewrite xdiv_NaN_r. }
  rewrite HC, HI. split; [done|].
  unfold col_round2. rewrite list_lookup_fmap, shift_m1_prev by lia.
  by rewrite HiS.
Qed.

Lemma unknown_close_blanks_next_day_witness :
  exists o, analyze gap_days = Ok o
  /\ pct_iCHANGE (out_df o) !! 1 = Some NaN
  /\ pct_CHANGE (out_df o) !! 0 = Some NaN.
Proof.
  on_sample_run. apply (unknown_close_blanks_next_day gap_days); computed.
Defined.
